(** * vnpy_TickDataRecorder: the tick journal codec and the tick assembler

    A shallow embedding of [record_tick.py], [transform_tick_data.py] and
    [load_tick_data.py], and the properties of the journal writer, the line
    decoder, the session date, the sanitizer and the tick assembler.

    - Python [str] is a list of code points ([pystr]); the library methods
      the sources call ([replace], [split], [rsplit], [strip], [repr],
      [float], [datetime.strptime], [strftime]) are written out as CPython 3
      has them.
    - A Python [dict] keeps insertion order, which [repr] shows: it is an
      association list with unique keys ([dict]).
    - Exceptions are the [Raise] branch of the result type [Res].
    - A binary64 float is a [spec_float] of the Standard Library; [float(s)]
      rounds the decimal text to the nearest float.
    - The recorder's contract cache and the journal directory are finite
      maps ([gmap]).

    The interpreter's Unicode tables and vnpy's [Exchange] enumeration are not
    part of the sources; they are the fields of the class [Host], and every
    property holds for every host. *)

From Stdlib Require Import ZArith NArith List Bool Ascii String Lia.
From Stdlib Require Import Floats.SpecFloat.
From stdpp Require Import gmap.
Import ListNotations.

Local Open Scope N_scope.

(** ** Python strings *)

Definition pystr : Type := list N.

(** An ASCII literal as a Python string. *)
Definition str (a : string) : pystr :=
  List.map N_of_ascii (list_ascii_of_string a).

(** U+FF0C FULLWIDTH COMMA followed by U+0020: the separator of
    [clean_str.split('， ')]. *)
Definition fullwidth_comma : N := 65292.
Definition FIELD_SEP : pystr := [fullwidth_comma; 32].

(** What the sources use of the interpreter and of vnpy without defining it.
    The three Unicode tables are only consulted above U+007F. *)
Class Host := {
  (** [str.isprintable] of one code point *)
  uni_printable : N -> bool;
  (** [str.isspace] of one code point *)
  uni_space : N -> bool;
  (** the value (0 to 9) of a code point of category Nd *)
  uni_decimal : N -> option N;
  (** the values of the members of [vnpy.trader.constant.Exchange] *)
  exchange_values : list pystr
}.

Definition pystr_eqb (a b : pystr) : bool := bool_decide (a = b).

Fixpoint startswith (p s : pystr) : bool :=
  match p, s with
  | [], _ => true
  | _ :: _, [] => false
  | a :: p', b :: s' => (a =? b) && startswith p' s'
  end.

(** [s.replace(old, new)] for a non-empty [old]: occurrences are taken from
    left to right and do not overlap. [skip] counts the characters of the
    occurrence just replaced that are still to be dropped. *)
Fixpoint replace_from (old new : pystr) (skip : nat) (s : pystr) : pystr :=
  match s with
  | [] => []
  | c :: t =>
      match skip with
      | S k => replace_from old new k t
      | O =>
          if startswith old s
          then new ++ replace_from old new (Nat.pred (List.length old)) t
          else c :: replace_from old new O t
      end
  end.

(** [s.replace(old, new)]; with an empty [old], [new] goes before every
    character and at the end. *)
Definition replace (old new s : pystr) : pystr :=
  match old with
  | [] => List.concat (List.map (fun c => new ++ [c]) s) ++ new
  | _ :: _ => replace_from old new O s
  end.

(** [s.split(sep)]: [cur] is the current piece, reversed. *)
Fixpoint split_from (sep : pystr) (skip : nat) (cur s : pystr) : list pystr :=
  match s with
  | [] => [List.rev cur]
  | c :: t =>
      match skip with
      | S k => split_from sep k cur t
      | O =>
          if startswith sep s
          then List.rev cur :: split_from sep (Nat.pred (List.length sep)) [] t
          else split_from sep O (c :: cur) t
      end
  end.

(** [s.split(sep)] for a non-empty [sep] (Python raises [ValueError] on an
    empty one; every call of the sources passes a non-empty literal). *)
Definition split (sep s : pystr) : list pystr :=
  match sep with
  | [] => [s]
  | _ :: _ => split_from sep O [] s
  end.

(** [sep.join(parts)] *)
Fixpoint join (sep : pystr) (parts : list pystr) : pystr :=
  match parts with
  | [] => []
  | [p] => p
  | p :: rest => p ++ sep ++ join sep rest
  end.

(** [s.rsplit(c, 1)] for a one-character separator: [None] when [c] does not
    occur, else what is before and after its last occurrence. *)
Fixpoint rsplit1 (c : N) (s : pystr) : option (pystr * pystr) :=
  match s with
  | [] => None
  | x :: t =>
      match rsplit1 c t with
      | Some (a, b) => Some (x :: a, b)
      | None => if x =? c then Some ([], t) else None
      end
  end.

Section Unicode.
Context `{Host}.

(** [Py_UNICODE_ISSPACE] *)
Definition isspace (c : N) : bool :=
  if c <? 128
  then ((9 <=? c) && (c <=? 13)) || ((28 <=? c) && (c <=? 32))
  else uni_space c.

(** [Py_UNICODE_ISPRINTABLE] *)
Definition isprintable (c : N) : bool :=
  if c <? 128 then (32 <=? c) && (c <? 127) else uni_printable c.

(** [Py_UNICODE_TODECIMAL] *)
Definition todecimal (c : N) : option N :=
  if c <? 128
  then if (48 <=? c) && (c <=? 57) then Some (c - 48) else None
  else uni_decimal c.

(** [not line.strip()]: the line has only white space. *)
Definition blank (s : pystr) : bool := forallb isspace s.
End Unicode.

(** ** [repr] of a string *)

Definition hex_digit (d : N) : N := if d <? 10 then 48 + d else 87 + d.

(** The [width] lowest hexadecimal digits of [n], most significant first. *)
Fixpoint hex_fixed (width : nat) (n : N) : pystr :=
  match width with
  | O => []
  | S w => hex_fixed w (n / 16) ++ [hex_digit (n mod 16)]
  end.

(** The single quote, the double quote and the backslash. *)
Definition QUOTE : N := 39.
Definition DQUOTE : N := 34.
Definition BACKSLASH : N := 92.

Definition contains (c : N) (s : pystr) : bool := existsb (N.eqb c) s.

(** The quote character [repr] picks: a double quote only when the string has
    a single quote and no double quote. *)
Definition repr_quote (s : pystr) : N :=
  if contains QUOTE s && negb (contains DQUOTE s) then DQUOTE else QUOTE.

Section Repr.
Context `{Host}.

(** One character inside [repr(s)], [q] being the quote picked. *)
Definition repr_char (q c : N) : pystr :=
  if (c =? q) || (c =? BACKSLASH) then [BACKSLASH; c]
  else if c =? 9 then str "\t"
  else if c =? 10 then str "\n"
  else if c =? 13 then str "\r"
  else if (c <? 32) || (c =? 127) then str "\x" ++ hex_fixed 2 c
  else if c <? 127 then [c]
  else if isprintable c then [c]
  else if c <=? 255 then str "\x" ++ hex_fixed 2 c
  else if c <=? 65535 then str "\u" ++ hex_fixed 4 c
  else str "\U" ++ hex_fixed 8 c.

(** [repr(s)] *)
Definition repr (s : pystr) : pystr :=
  let q := repr_quote s in
  [q] ++ List.concat (List.map (repr_char q) s) ++ [q].

(** A character that [repr] leaves as it is, whatever the quote. *)
Definition plain_char (c : N) : bool :=
  negb (c =? QUOTE) && negb (c =? DQUOTE) && negb (c =? BACKSLASH)
  && isprintable c.

Definition plain (s : pystr) : bool := forallb plain_char s.
End Repr.

(** ** Exceptions *)

Inductive exn : Type :=
| KeyError (key : pystr)
| ValueError.

Inductive Res (A : Type) : Type :=
| Ok (a : A)
| Raise (e : exn).
Arguments Ok {A} a.
Arguments Raise {A} e.

#[global] Instance Res_ret : MRet Res := fun A a => Ok a.

#[global] Instance Res_bind : MBind Res := fun A B k r =>
  match r with
  | Ok a => k a
  | Raise e => Raise e
  end.

#[global] Instance Res_fmap : FMap Res := fun A B f r =>
  match r with
  | Ok a => Ok (f a)
  | Raise e => Raise e
  end.

Definition raised {A : Type} (r : Res A) : Prop := exists e, r = Raise e.

(** ** Python dictionaries with string keys *)

Definition dict (V : Type) : Type := list (pystr * V).

(** [d.get(k)], [None] standing for Python's [None] *)
Fixpoint dict_get {V : Type} (d : dict V) (k : pystr) : option V :=
  match d with
  | [] => None
  | (k', v) :: rest => if pystr_eqb k' k then Some v else dict_get rest k
  end.

(** [d[k] = v]: a key already there keeps its place. *)
Fixpoint dict_set {V : Type} (d : dict V) (k : pystr) (v : V) : dict V :=
  match d with
  | [] => [(k, v)]
  | (k', v') :: rest =>
      if pystr_eqb k' k then (k', v) :: rest else (k', v') :: dict_set rest k v
  end.

(** [d[k]] *)
Definition dict_item {V : Type} (d : dict V) (k : pystr) : Res V :=
  match dict_get d k with
  | Some v => Ok v
  | None => Raise (KeyError k)
  end.

(** The association list is a dictionary: no key twice. *)
Definition well_formed {V : Type} (d : dict V) : Prop := NoDup (List.map fst d).

(** Equality of two dictionaries as mappings, whatever the order of keys. *)
Definition same_mapping {V : Type} (d1 d2 : dict V) : Prop :=
  forall k, dict_get d1 k = dict_get d2 k.

(** A raw snapshot, and a decoded journal line: strings to strings. *)
Definition snapshot : Type := dict pystr.

(** Truth value of [d.get(k)] for string values: there and not empty. *)
Definition truthy (d : snapshot) (k : pystr) : bool :=
  match dict_get d k with
  | Some (_ :: _) => true
  | _ => false
  end.

Section ReprDict.
Context `{Host}.

Definition repr_item (kv : pystr * pystr) : pystr :=
  repr (fst kv) ++ str ": " ++ repr (snd kv).

(** [repr(d)], which is also [str(d)] and what [f"{d}"] inserts. *)
Definition repr_dict (d : snapshot) : pystr :=
  str "{" ++ join (str ", ") (List.map repr_item d) ++ str "}".
End ReprDict.

(** ** Dates and times *)

Record datetime : Type := {
  year : N; month : N; day : N;
  hour : N; minute : N; second : N; microsecond : N
}.

(** The [width] lowest decimal digits of [n], most significant first. *)
Fixpoint dec_fixed (width : nat) (n : N) : pystr :=
  match width with
  | O => []
  | S w => dec_fixed w (n / 10) ++ [48 + n mod 10]
  end.

(** [dt.strftime('%Y-%m-%d %H:%M:%S')], for a year of four digits. *)
Definition strftime (dt : datetime) : pystr :=
  dec_fixed 4 (year dt) ++ str "-" ++ dec_fixed 2 (month dt) ++ str "-"
  ++ dec_fixed 2 (day dt) ++ str " " ++ dec_fixed 2 (hour dt) ++ str ":"
  ++ dec_fixed 2 (minute dt) ++ str ":" ++ dec_fixed 2 (second dt).

(** ** vnpy objects *)

(** A member of [vnpy.trader.constant.Exchange], by its value. *)
Definition Exchange : Type := pystr.
Definition DCE : Exchange := str "DCE".

(** A member of [vnpy.trader.constant.Product]: [Product.FUTURES], or another
    one, by its value. *)
Inductive Product : Type :=
| FUTURES
| NOT_FUTURES (value : pystr).

Definition is_futures (p : Product) : bool :=
  match p with FUTURES => true | NOT_FUTURES _ => false end.

(** The fields of [ContractData] that the recorder reads. *)
Record ContractData : Type := {
  contract_symbol : pystr;
  contract_exchange : Exchange;
  contract_product : Product
}.

Record SubscribeRequest : Type := {
  req_symbol : pystr;
  req_exchange : Exchange
}.

(** ** record_tick.py *)

Module record_tick.

(** The state of a [TickRecorder]: the contract cache, the requests handed
    to [ctp_gateway.subscribe], and the text of the files of
    [data_directory], by the name given to [joinpath]. *)
Record TickRecorder : Type := {
  contracts : gmap pystr ContractData;
  subscribed : list SubscribeRequest;
  tick_data : gmap pystr pystr
}.

(** The recorder that [__init__] leaves, [files] being what the directory
    [tick_data] holds when it starts. *)
Definition init (files : gmap pystr pystr) : TickRecorder :=
  {| contracts := ∅; subscribed := []; tick_data := files |}.

Definition handle_contract_event
    (self : TickRecorder) (contract : ContractData) : TickRecorder :=
  if negb (is_futures (contract_product contract)) then self
  else
    {| contracts := <[contract_symbol contract := contract]> (contracts self);
       subscribed := subscribed self ++
         [{| req_symbol := contract_symbol contract;
             req_exchange := contract_exchange contract |}];
       tick_data := tick_data self |}.

Section Writer.
Context `{Host}.

(** [f"{o_tick['InstrumentID']}.{o_tick['ExchangeID']}.txt"] *)
Definition file_name (o_tick : snapshot) : Res pystr :=
  instrument ← dict_item o_tick (str "InstrumentID");
  exchange ← dict_item o_tick (str "ExchangeID");
  mret (instrument ++ str "." ++ exchange ++ str ".txt").

(** What [f.write] is given: [f"\n{o_tick}"]. *)
Definition journal_entry (o_tick : snapshot) : pystr :=
  [10] ++ repr_dict o_tick.

(** [open(file_path, mode='a+')] then [f.write(text)]: the file is
    created when it is not there, the text goes to its end. That [open]
    succeeds is taken for granted here: on a name with a null character or
    a slash, or on one too long, it raises, which this map of texts does
    not model. *)
Definition append_text (files : gmap pystr pystr) (name text : pystr)
    : gmap pystr pystr :=
  <[name := default [] (files !! name) ++ text]> files.

Definition append_tick_to_file
    (self : TickRecorder) (o_tick : snapshot) : Res TickRecorder :=
  name ← file_name o_tick;
  mret {| contracts := contracts self;
          subscribed := subscribed self;
          tick_data := append_text (tick_data self) name
                         (journal_entry o_tick) |}.

(** [now] is the reading of [datetime.now()]. The result is the recorder
    and the dictionary of the event, which the handler updates in
    place. *)
Definition handle_original_tick
    (self : TickRecorder) (now : datetime) (o_tick : snapshot)
    : Res (TickRecorder * snapshot) :=
  let symbol := dict_get o_tick (str "InstrumentID") in
  let contract := symbol ≫= fun s => contracts self !! s in
  match contract with
  | None => mret (self, o_tick)
  | Some contract =>
      let o_tick := dict_set o_tick (str "ExchangeID")
                      (contract_exchange contract) in
      let o_tick := dict_set o_tick (str "localtime") (strftime now) in
      self ← append_tick_to_file self o_tick;
      mret (self, o_tick)
  end.
End Writer.

End record_tick.

(** ** The line decoder of transform_tick_data.py and load_tick_data.py

    [TickToBarConverter._parse_line_to_tick] and
    [TickFileLoader._parse_line_to_tick] build [tick_dict] with the same
    statements, then hand it to [_generate_tick] and [_dict_to_tick]. *)

(** [line.replace('{', '').replace('}', '').replace("''", '')] *)
Definition clean_str (line : pystr) : pystr :=
  replace (str "''") [] (replace (str "}") [] (replace (str "{") [] line)).

(** The body of [for field in fields]. *)
Definition add_field (tick_dict : snapshot) (field : pystr) : snapshot :=
  match split (str ": ") field with
  | [k; v] => dict_set tick_dict k v
  | _ => tick_dict
  end.

(** The [tick_dict] that the loop leaves. *)
Definition tick_dict (line : pystr) : snapshot :=
  fold_left add_field (split FIELD_SEP (clean_str line)) [].

(** ** Floats: [float(s)] and [sys.float_info.max] *)

Abbreviation float := spec_float.

(** [sys.float_info.max], (2^53 - 1) * 2^971 *)
Definition float_max : float := SFmax_float 53 1024.

(** The float nearest to [(-1)^neg * m * 10^e], ties to even: what the
    correctly rounded [strtod] of CPython returns. *)
Definition float_of_decimal (neg : bool) (m : N) (e : Z) : float :=
  match m with
  | N0 => S754_zero neg
  | Npos p =>
      if (0 <=? e)%Z
      then binary_normalize 53 1024 (cond_Zopp neg (Zpos p * 10 ^ e)) 0 false
      else SFdiv 53 1024 (S754_finite neg p 0)
                         (S754_finite false (Z.to_pos (10 ^ (- e))) 0)
  end.

Definition is_digit (c : N) : bool := (48 <=? c) && (c <=? 57).

(** [Py_ISSPACE] *)
Definition is_c_space (c : N) : bool := ((9 <=? c) && (c <=? 13)) || (c =? 32).

Definition lower (c : N) : N := if (65 <=? c) && (c <=? 90) then c + 32 else c.

(** The leading ASCII digits of [s], as values, and what follows them. *)
Fixpoint take_digits (s : pystr) : list N * pystr :=
  match s with
  | [] => ([], [])
  | c :: t =>
      if is_digit c
      then let '(ds, rest) := take_digits t in ((c - 48) :: ds, rest)
      else ([], s)
  end.

Definition digits_value (ds : list N) : N :=
  fold_left (fun a d => 10 * a + d) ds 0.

Definition parse_sign (s : pystr) : bool * pystr :=
  match s with
  | 45 :: t => (true, t)
  | 43 :: t => (false, t)
  | _ => (false, s)
  end.

(** What may follow the mantissa: nothing, or [e] or [E], a sign and at least
    one digit. *)
Definition parse_exponent (s : pystr) : option Z :=
  match s with
  | [] => Some 0%Z
  | c :: t =>
      if (c =? 101) || (c =? 69) then
        let '(neg, t1) := parse_sign t in
        match take_digits t1 with
        | ([], _) => None
        | (ds, []) => Some (cond_Zopp neg (Z.of_N (digits_value ds)))
        | (_, _ :: _) => None
        end
      else None
  end.

(** A decimal literal: sign, mantissa digits, power of ten. *)
Definition parse_decimal (s : pystr) : option (bool * N * Z) :=
  let '(neg, s1) := parse_sign s in
  let '(ip, s2) := take_digits s1 in
  let '(fp, s3) := match s2 with
                   | 46 :: t => take_digits t
                   | _ => ([], s2)
                   end in
  match ip ++ fp with
  | [] => None
  | ds => x ← parse_exponent s3;
          Some (neg, digits_value ds, (x - Z.of_nat (List.length fp))%Z)
  end.

(** [_Py_parse_inf_or_nan] on the whole text *)
Definition parse_inf_or_nan (s : pystr) : option float :=
  let '(neg, s1) := parse_sign s in
  let w := List.map lower s1 in
  if pystr_eqb w (str "inf") || pystr_eqb w (str "infinity")
  then Some (S754_infinity neg)
  else if pystr_eqb w (str "nan") then Some S754_nan
  else None.

(** [_Py_string_to_number_with_underscores]: an underscore is dropped when it
    stands between two digits and refused elsewhere. [prev] is the character
    before [s]. *)
Fixpoint drop_underscores (prev : N) (s : pystr) : option pystr :=
  match s with
  | [] => if prev =? 95 then None else Some []
  | c :: t =>
      if c =? 95
      then (if is_digit prev then drop_underscores c t else None)
      else if (prev =? 95) && negb (is_digit c) then None
      else cons c <$> drop_underscores c t
  end.

Fixpoint drop_while (p : N -> bool) (s : pystr) : pystr :=
  match s with
  | [] => []
  | c :: t => if p c then drop_while p t else s
  end.

(** Without its leading and trailing [Py_ISSPACE] characters. *)
Definition strip_c_spaces (s : pystr) : pystr :=
  List.rev (drop_while is_c_space (List.rev (drop_while is_c_space s))).

Section Float.
Context `{Host}.

(** One character of [_PyUnicode_TransformDecimalAndSpaceToASCII]. *)
Definition to_ascii_number (c : N) : N :=
  if c <? 127 then c
  else if isspace c then 32
  else match todecimal c with
       | Some d => 48 + d
       | None => 63
       end.

(** [float(s)] for a string [s] *)
Definition float_of_str (s : pystr) : Res float :=
  match drop_underscores 0 (List.map to_ascii_number s) with
  | None => Raise ValueError
  | Some t =>
      let t := strip_c_spaces t in
      match parse_decimal t with
      | Some (neg, m, e) => Ok (float_of_decimal neg m e)
      | None =>
          match parse_inf_or_nan t with
          | Some f => Ok f
          | None => Raise ValueError
          end
      end
  end.
End Float.

(** A Python number: an [int] or a [float]. *)
Inductive number : Type :=
| PyInt (z : Z)
| PyFloat (f : float).

(** [n == sys.float_info.max] *)
Definition is_float_max (n : number) : bool :=
  match n with
  | PyInt z => (z =? (2 ^ 53 - 1) * 2 ^ 971)%Z
  | PyFloat f => SFeqb f float_max
  end.

(** [_adjust_price] of transform_tick_data.py and of load_tick_data.py *)
Definition _adjust_price (price : float) : number :=
  if SFeqb price float_max then PyInt 0 else PyFloat price.

(** ** [datetime.strptime]

    CPython's [_strptime] turns a format into a regular expression and takes
    its first match, found by backtracking. A [matcher] lists the matches of
    a piece of the expression at the head of a text, in the order backtracking
    tries them, each with the text that follows it. *)

Definition matcher (A : Type) : Type := pystr -> list (A * pystr).

(** One character, by its value under [p]. *)
Definition one (p : N -> option N) : matcher N := fun s =>
  match s with
  | c :: t => match p c with Some v => [(v, t)] | None => [] end
  | [] => []
  end.

(** The class [[a-b]] of the ASCII digits [lo] to [hi]. *)
Definition among (lo hi : N) : matcher N :=
  one (fun c => if (48 + lo <=? c) && (c <=? 48 + hi) then Some (c - 48) else None).

(** A literal character of the format. *)
Definition lit (c : N) : matcher unit := fun s =>
  match s with
  | x :: t => if x =? c then [(tt, t)] else []
  | [] => []
  end.

(** Two digits one after the other, as a number. *)
Definition two (a b : matcher N) : matcher N := fun s =>
  '(x, s1) ← a s; '(y, s2) ← b s1; [(10 * x + y, s2)].

(** The alternatives of a group, in their order. *)
Definition alt {A : Type} (ps : list (matcher A)) : matcher A := fun s =>
  p ← ps; p s.

(** [[0-9]{1,6}]: greedy, so the longer matches come first. The value is the
    number read after padding with zeros to six digits, [left] being how many
    digits may still come. *)
Fixpoint fraction (left : nat) (acc : N) (s : pystr) : list (N * pystr) :=
  match left with
  | O => []
  | S k =>
      match s with
      | c :: t =>
          if is_digit c
          then let acc := 10 * acc + (c - 48) in
               fraction k acc t ++ [(acc * 10 ^ N.of_nat k, t)]
          else []
      | [] => []
      end
  end.

Definition days_in_month (y m : N) : N :=
  if m =? 2 then
    if ((y mod 4 =? 0) && negb (y mod 100 =? 0)) || (y mod 400 =? 0)
    then 29 else 28
  else if (m =? 4) || (m =? 6) || (m =? 9) || (m =? 11) then 30
  else 31.

(** The checks of the constructors [date(y, m, d)] and [datetime(...)] on what
    the expression lets through. *)
Definition make_datetime (y m d hh mm ss us : N) : Res datetime :=
  if (1 <=? y) && (1 <=? d) && (d <=? days_in_month y m) && (ss <=? 59)
  then Ok {| year := y; month := m; day := d;
             hour := hh; minute := mm; second := ss; microsecond := us |}
  else Raise ValueError.

Section Strptime.
Context `{Host}.

(** [\d] *)
Definition digit : matcher N := one todecimal.

(** [\s+], greedy *)
Fixpoint spaces (s : pystr) : list (unit * pystr) :=
  match s with
  | c :: t => if isspace c then spaces t ++ [(tt, t)] else []
  | [] => []
  end.

(** [%Y]: [\d\d\d\d] *)
Definition re_Y : matcher N := fun s =>
  '(a, s1) ← two digit digit s; '(b, s2) ← two digit digit s1;
  [(100 * a + b, s2)].

(** [%m]: [1[0-2]|0[1-9]|[1-9]] *)
Definition re_m : matcher N :=
  alt [two (among 1 1) (among 0 2); two (among 0 0) (among 1 9); among 1 9].

(** [%d]: [3[0-1]|[1-2]\d|0[1-9]|[1-9]| [1-9]] *)
Definition re_d : matcher N :=
  alt [two (among 3 3) (among 0 1); two (among 1 2) digit;
       two (among 0 0) (among 1 9); among 1 9;
       fun s => '(_, s1) ← lit 32 s; among 1 9 s1].

(** [%H]: [2[0-3]|[0-1]\d|\d] *)
Definition re_H : matcher N :=
  alt [two (among 2 2) (among 0 3); two (among 0 1) digit; digit].

(** [%M]: [[0-5]\d|\d] *)
Definition re_M : matcher N :=
  alt [two (among 0 5) digit; digit].

(** [%S]: [6[0-1]|[0-5]\d|\d] *)
Definition re_S : matcher N :=
  alt [two (among 6 6) (among 0 1); two (among 0 5) digit; digit].

(** The first match must take the whole text. *)
Definition first_match (ms : list (Res datetime * pystr)) : Res datetime :=
  match ms with
  | (r, []) :: _ => r
  | _ => Raise ValueError
  end.

(** [datetime.strptime(s, "%Y%m%d %H:%M:%S.%f")] *)
Definition strptime_exchange (s : pystr) : Res datetime :=
  first_match (
    '(y, s) ← re_Y s; '(m, s) ← re_m s; '(d, s) ← re_d s;
    '(_, s) ← spaces s;
    '(hh, s) ← re_H s; '(_, s) ← lit 58 s;
    '(mm, s) ← re_M s; '(_, s) ← lit 58 s;
    '(ss, s) ← re_S s; '(_, s) ← lit 46 s;
    '(us, s) ← fraction 6 0 s;
    [(make_datetime y m d hh mm ss us, s)]).

(** [datetime.strptime(s, '%Y-%m-%d %H:%M:%S')] *)
Definition strptime_local (s : pystr) : Res datetime :=
  first_match (
    '(y, s) ← re_Y s; '(_, s) ← lit 45 s;
    '(m, s) ← re_m s; '(_, s) ← lit 45 s;
    '(d, s) ← re_d s;
    '(_, s) ← spaces s;
    '(hh, s) ← re_H s; '(_, s) ← lit 58 s;
    '(mm, s) ← re_M s; '(_, s) ← lit 58 s;
    '(ss, s) ← re_S s;
    [(make_datetime y m d hh mm ss 0, s)]).
End Strptime.

(** ** The tick assembler of transform_tick_data.py and load_tick_data.py *)

(** The sixteen attributes of levels 2 to 5, which the assembler assigns
    together or leaves at the defaults of [TickData]. *)
Record Depth : Type := {
  bid_price_2 : number; bid_price_3 : number;
  bid_price_4 : number; bid_price_5 : number;
  ask_price_2 : number; ask_price_3 : number;
  ask_price_4 : number; ask_price_5 : number;
  bid_volume_2 : number; bid_volume_3 : number;
  bid_volume_4 : number; bid_volume_5 : number;
  ask_volume_2 : number; ask_volume_3 : number;
  ask_volume_4 : number; ask_volume_5 : number
}.

(** The attributes of [vnpy.trader.object.TickData] that the assembler sets.
    [depth] is [None] when levels 2 to 5 were not assigned. *)
Record TickData : Type := {
  symbol : pystr;
  exchange : Exchange;
  tick_datetime : datetime;
  volume : number;
  turnover : number;
  open_interest : number;
  last_price : number;
  limit_up : number;
  limit_down : number;
  open_price : number;
  high_price : number;
  low_price : number;
  pre_close : number;
  bid_price_1 : number;
  ask_price_1 : number;
  bid_volume_1 : number;
  ask_volume_1 : number;
  gateway_name : pystr;
  localtime : datetime;
  depth : option Depth
}.

(** The tick after the sixteen assignments. *)
Definition with_depth (tick : TickData) (d : Depth) : TickData :=
  {| symbol := symbol tick; exchange := exchange tick;
     tick_datetime := tick_datetime tick;
     volume := volume tick; turnover := turnover tick;
     open_interest := open_interest tick; last_price := last_price tick;
     limit_up := limit_up tick; limit_down := limit_down tick;
     open_price := open_price tick; high_price := high_price tick;
     low_price := low_price tick; pre_close := pre_close tick;
     bid_price_1 := bid_price_1 tick; ask_price_1 := ask_price_1 tick;
     bid_volume_1 := bid_volume_1 tick; ask_volume_1 := ask_volume_1 tick;
     gateway_name := gateway_name tick; localtime := localtime tick;
     depth := Some d |}.

Section Assembler.
Context `{Host}.

(** [vnpy.trader.utility.extract_vt_symbol] of vnpy 3:
    [symbol, exchange_str = vt_symbol.rsplit(".", 1)] then
    [Exchange(exchange_str)]. *)
Definition extract_vt_symbol (vt_symbol : pystr) : Res (pystr * Exchange) :=
  match rsplit1 46 vt_symbol with
  | None => Raise ValueError
  | Some (symbol, exchange_str) =>
      if existsb (pystr_eqb exchange_str) exchange_values
      then Ok (symbol, exchange_str)
      else Raise ValueError
  end.

(** [localtime.split(' ')[0].replace('-', '')] *)
Definition local_date (localtime : pystr) : pystr :=
  replace (str "-") [] (hd [] (split (str " ") localtime)).

(** The [date_str] that the [if] on [ActionDay] and [Exchange.DCE] sets. *)
Definition date_str (data : snapshot) (exchange : Exchange) : Res pystr :=
  if negb (truthy data (str "ActionDay")) || pystr_eqb exchange DCE
  then local_date <$> dict_item data (str "localtime")
  else dict_item data (str "ActionDay").

(** [float(data[key])] *)
Definition float_item (data : snapshot) (key : string) : Res float :=
  dict_item data (str key) ≫= float_of_str.

(** [float(data[key])] as a number *)
Definition raw (data : snapshot) (key : string) : Res number :=
  PyFloat <$> float_item data key.

(** [_adjust_price(float(data[key]))] *)
Definition adjusted (data : snapshot) (key : string) : Res number :=
  _adjust_price <$> float_item data key.

(** The sixteen assignments under
    [if data.get("BidVolume2") or data.get("AskVolume2")], in their
    order. *)
Definition read_depth (data : snapshot) : Res Depth :=
  bp2 ← adjusted data "BidPrice2"; bp3 ← adjusted data "BidPrice3";
  bp4 ← adjusted data "BidPrice4"; bp5 ← adjusted data "BidPrice5";
  ap2 ← adjusted data "AskPrice2"; ap3 ← adjusted data "AskPrice3";
  ap4 ← adjusted data "AskPrice4"; ap5 ← adjusted data "AskPrice5";
  bv2 ← raw data "BidVolume2"; bv3 ← raw data "BidVolume3";
  bv4 ← raw data "BidVolume4"; bv5 ← raw data "BidVolume5";
  av2 ← raw data "AskVolume2"; av3 ← raw data "AskVolume3";
  av4 ← raw data "AskVolume4"; av5 ← raw data "AskVolume5";
  mret {| bid_price_2 := bp2; bid_price_3 := bp3;
          bid_price_4 := bp4; bid_price_5 := bp5;
          ask_price_2 := ap2; ask_price_3 := ap3;
          ask_price_4 := ap4; ask_price_5 := ap5;
          bid_volume_2 := bv2; bid_volume_3 := bv3;
          bid_volume_4 := bv4; bid_volume_5 := bv5;
          ask_volume_2 := av2; ask_volume_3 := av3;
          ask_volume_4 := av4; ask_volume_5 := av5 |}.

(** The condition of the five-level block. *)
Definition has_depth (data : snapshot) : bool :=
  truthy data (str "BidVolume2") || truthy data (str "AskVolume2").

(** The first statements that [TickToBarConverter._generate_tick] and
    [TickFileLoader._dict_to_tick] share, from the test of [UpdateTime] to
    [tick = TickData(...)]: [None] is the early [return]. The arguments of
    [TickData] are evaluated in the order they are written. *)
Definition construct (vt_symbol : pystr) (data : snapshot)
    : Res (option TickData) :=
  if negb (truthy data (str "UpdateTime")) then mret None
  else
    '(symbol, exchange) ← extract_vt_symbol vt_symbol;
    date ← date_str data exchange;
    update_time ← dict_item data (str "UpdateTime");
    millisec ← dict_item data (str "UpdateMillisec");
    dt ← strptime_exchange
           (date ++ str " " ++ update_time ++ str "." ++ millisec);
    volume ← raw data "Volume";
    turnover ← raw data "Turnover";
    open_interest ← raw data "OpenInterest";
    last_price ← adjusted data "LastPrice";
    limit_up ← raw data "UpperLimitPrice";
    limit_down ← raw data "LowerLimitPrice";
    open_price ← adjusted data "OpenPrice";
    high_price ← adjusted data "HighestPrice";
    low_price ← adjusted data "LowestPrice";
    pre_close ← adjusted data "PreClosePrice";
    bid_price_1 ← adjusted data "BidPrice1";
    ask_price_1 ← adjusted data "AskPrice1";
    bid_volume_1 ← raw data "BidVolume1";
    ask_volume_1 ← raw data "AskVolume1";
    localtime ← dict_item data (str "localtime") ≫= strptime_local;
    mret (Some
      {| symbol := symbol; exchange := exchange; tick_datetime := dt;
         volume := volume; turnover := turnover;
         open_interest := open_interest; last_price := last_price;
         limit_up := limit_up; limit_down := limit_down;
         open_price := open_price; high_price := high_price;
         low_price := low_price; pre_close := pre_close;
         bid_price_1 := bid_price_1; ask_price_1 := ask_price_1;
         bid_volume_1 := bid_volume_1; ask_volume_1 := ask_volume_1;
         gateway_name := str "local_gateway"; localtime := localtime;
         depth := None |}).

(** The shared statements up to the last assignment of the five-level
    block: [construct], then the block when its condition holds. *)
Definition assemble (vt_symbol : pystr) (data : snapshot)
    : Res (option TickData) :=
  tick ← construct vt_symbol data;
  match tick with
  | None => mret None
  | Some tick =>
      if has_depth data
      then d ← read_depth data; mret (Some (with_depth tick d))
      else mret (Some tick)
  end.
End Assembler.

(** A [for] loop whose body threads a state: [step] runs over the items, from
    the first one, until one raises. *)
Fixpoint for_each {S A : Type} (step : S -> A -> Res S)
    (st : S) (items : list A) : Res S :=
  match items with
  | [] => mret st
  | item :: rest => st ← step st item; for_each step st rest
  end.

(** ** transform_tick_data.py *)

Module transform_tick_data.

(** A [TickToBarConverter]: [bg] holds the ticks given so far to
    [self.bg.update_tick], the oldest first. *)
Record TickToBarConverter : Type := {
  vt_symbol : pystr;
  bg : list TickData
}.

Section Converter.
Context `{Host}.

Definition _generate_tick (self : TickToBarConverter) (data : snapshot)
    : Res TickToBarConverter :=
  tick ← assemble (vt_symbol self) data;
  match tick with
  | None => mret self
  | Some tick =>
      mret {| vt_symbol := vt_symbol self; bg := bg self ++ [tick] |}
  end.

Definition _parse_line_to_tick (self : TickToBarConverter) (line : pystr)
    : Res TickToBarConverter :=
  _generate_tick self (tick_dict line).

Definition _process_tick_string
    (self : TickToBarConverter) (data_str : pystr)
    : Res TickToBarConverter :=
  for_each
    (fun self line =>
       if blank line then mret self else _parse_line_to_tick self line)
    self (split [10] data_str).
End Converter.

End transform_tick_data.

(** ** load_tick_data.py *)

Module load_tick_data.

(** A [TickFileLoader], without its two paths. *)
Record TickFileLoader : Type := {
  vt_symbol : pystr
}.

Section Loader.
Context `{Host}.

(** The tick is built and dropped: the method returns nothing. *)
Definition _dict_to_tick (self : TickFileLoader) (data : snapshot) : Res unit :=
  _ ← assemble (vt_symbol self) data; mret tt.

Definition _parse_line_to_tick (self : TickFileLoader) (line : pystr)
    : Res unit :=
  _dict_to_tick self (tick_dict line).

Definition process_total_data (self : TickFileLoader) (data_str : pystr)
    : Res unit :=
  for_each
    (fun _ line =>
       if blank line then mret tt else _parse_line_to_tick self line)
    tt (split [10] data_str).
End Loader.

End load_tick_data.

(** The handlers as the event engine calls them, one event after the other. *)
Module recorder_events.
Import record_tick.

Inductive event : Type :=
| CONTRACT (contract : ContractData)
| ORIGINAL_TICK (now : datetime) (o_tick : snapshot).

Section Dispatch.
Context `{Host}.

Definition handle (self : TickRecorder) (ev : event) : Res TickRecorder :=
  match ev with
  | CONTRACT contract => mret (handle_contract_event self contract)
  | ORIGINAL_TICK now o_tick => fst <$> handle_original_tick self now o_tick
  end.

Definition run (files : gmap pystr pystr) (events : list event)
    : Res TickRecorder :=
  for_each handle (init files) events.
End Dispatch.
End recorder_events.

(** ** Notions the statements use *)

(** [sep] does not occur in [s]. *)
Definition free (sep s : pystr) : Prop := forall a b, s <> a ++ sep ++ b.


(** A line of quoted pairs, as the specification words the encoder: braces
    around the pairs ['key': 'value'], joined by [sep]. *)
Definition quoted_item (kv : pystr * pystr) : pystr :=
  str "'" ++ fst kv ++ str "': '" ++ snd kv ++ str "'".

Definition quoted_line (sep : pystr) (d : snapshot) : pystr :=
  str "{" ++ join sep (List.map quoted_item d) ++ str "}".

(** The legacy line of the specification's journal format: the pairs joined
    by a full-width comma and a space. *)
Definition legacy_line (d : snapshot) : pystr := quoted_line FIELD_SEP d.

(** A line without quotes: braces around the pairs [key: value], joined by a
    full-width comma and a space. *)
Definition bare_item (kv : pystr * pystr) : pystr :=
  fst kv ++ str ": " ++ snd kv.

Definition bare_line (d : snapshot) : pystr :=
  str "{" ++ join FIELD_SEP (List.map bare_item d) ++ str "}".

(** What a key or a value may hold for the decoder to give it back. *)
Definition field_text (s : pystr) : Prop :=
  ~ In 123 s /\ ~ In 125 s /\ free (str "''") s /\ free (str ": ") s
  /\ free FIELD_SEP s.

(** Keys and values that [repr] only wraps in single quotes. *)
Definition plain_snapshot `{Host} (d : snapshot) : Prop :=
  Forall (fun kv => plain (fst kv) = true /\ plain (snd kv) = true) d.

(** The price attributes that go through [_adjust_price], with their keys. *)
Definition adjusted_prices : list (string * (TickData -> number)) :=
  [("LastPrice", last_price); ("OpenPrice", open_price);
   ("HighestPrice", high_price); ("LowestPrice", low_price);
   ("PreClosePrice", pre_close); ("BidPrice1", bid_price_1);
   ("AskPrice1", ask_price_1)]%string.

Definition adjusted_depth_prices : list (string * (Depth -> number)) :=
  [("BidPrice2", bid_price_2); ("BidPrice3", bid_price_3);
   ("BidPrice4", bid_price_4); ("BidPrice5", bid_price_5);
   ("AskPrice2", ask_price_2); ("AskPrice3", ask_price_3);
   ("AskPrice4", ask_price_4); ("AskPrice5", ask_price_5)]%string.

(** The attributes that take [float(data[key])] as it is. *)
Definition raw_fields : list (string * (TickData -> number)) :=
  [("Volume", volume); ("Turnover", turnover);
   ("OpenInterest", open_interest); ("UpperLimitPrice", limit_up);
   ("LowerLimitPrice", limit_down); ("BidVolume1", bid_volume_1);
   ("AskVolume1", ask_volume_1)]%string.

Definition depth_volumes : list (string * (Depth -> number)) :=
  [("BidVolume2", bid_volume_2); ("BidVolume3", bid_volume_3);
   ("BidVolume4", bid_volume_4); ("BidVolume5", bid_volume_5);
   ("AskVolume2", ask_volume_2); ("AskVolume3", ask_volume_3);
   ("AskVolume4", ask_volume_4); ("AskVolume5", ask_volume_5)]%string.

(** The sixteen keys of levels 2 to 5. *)
Definition depth_keys : list string :=
  List.map fst adjusted_depth_prices ++ List.map fst depth_volumes.

(** A host that knows no character above U+007F and the six mainland futures
    exchanges: enough to run the definitions on ASCII text. *)
Definition ascii_host : Host :=
  {| uni_printable := fun _ => false;
     uni_space := fun _ => false;
     uni_decimal := fun _ => None;
     exchange_values :=
       [str "CFFEX"; str "SHFE"; str "CZCE"; str "DCE"; str "INE"; str "GFEX"] |}.

Definition item (k v : string) : pystr * pystr := (str k, str v).

(** [str(sys.float_info.max)] *)
Definition MAX_TEXT : string := "1.7976931348623157e+308".

(** A snapshot of the index future IC2412 whose last price and upper limit
    price are the largest float. *)
Definition scenario : snapshot :=
  [item "InstrumentID" "IC2412"; item "UpdateTime" "09:30:00";
   item "UpdateMillisec" "500"; item "ActionDay" "20241210";
   item "LastPrice" MAX_TEXT; item "Volume" "100";
   item "Turnover" "390000.5"; item "OpenInterest" "2500";
   item "UpperLimitPrice" MAX_TEXT; item "LowerLimitPrice" "3510.2";
   item "OpenPrice" "3900.2"; item "HighestPrice" "3912.8";
   item "LowestPrice" "3890"; item "PreClosePrice" "3899.6";
   item "BidPrice1" "3900"; item "AskPrice1" "3900.4";
   item "BidVolume1" "7"; item "AskVolume1" "8";
   item "localtime" "2024-12-10 09:30:00"].

(** [sep] occurs nowhere in [t], decided. *)
Fixpoint occurs_nowhere (sep t : pystr) : bool :=
  match t with
  | [] => true
  | _ :: t' => negb (startswith sep t) && occurs_nowhere sep t'
  end.

(** The keys that [TickData(...)] reads with [float(data[key])]. *)
Definition required_numeric : list string :=
  List.map fst raw_fields ++ List.map fst adjusted_prices.

Section FieldValues.
Context `{Host}.

(** [n] is [_adjust_price(float(data[key]))]. *)
Definition sanitized (data : snapshot) (key : string) (n : number) : Prop :=
  exists x, float_item data key = Ok x /\ n = _adjust_price x.

(** [n] is [float(data[key])]. *)
Definition verbatim (data : snapshot) (key : string) (n : number) : Prop :=
  exists x, float_item data key = Ok x /\ n = PyFloat x.
End FieldValues.

(** What is in the cache came with a contract event and is a future. *)
Definition cache_from (events : list recorder_events.event)
    (self : record_tick.TickRecorder) : Prop :=
  forall s c,
    record_tick.contracts self !! s = Some c ->
    contract_product c = FUTURES /\ contract_symbol c = s
    /\ In (recorder_events.CONTRACT c) events.

(** ** Notions of the further properties *)

(** The ticks that the lines of a journal give, in the order of the lines:
    none for a blank line and for a line whose mapping has no update time;
    the first exception ends the reading. *)
Fixpoint ticks_of_lines `{Host} (vt : pystr) (lines : list pystr)
    : Res (list TickData) :=
  match lines with
  | [] => mret []
  | line :: rest =>
      tick ← (if blank line then mret None else assemble vt (tick_dict line));
      ticks ← ticks_of_lines vt rest;
      mret (match tick with Some t => t :: ticks | None => ticks end)
  end.

(** The futures contracts of the contract events, in the order of the
    events. *)
Fixpoint futures_of (events : list recorder_events.event) : list ContractData :=
  match events with
  | [] => []
  | recorder_events.CONTRACT c :: rest =>
      if is_futures (contract_product c)
      then c :: futures_of rest else futures_of rest
  | recorder_events.ORIGINAL_TICK _ _ :: rest => futures_of rest
  end.

(** The request that [handle_contract_event] builds for a contract. *)
Definition request_of (c : ContractData) : SubscribeRequest :=
  {| req_symbol := contract_symbol c; req_exchange := contract_exchange c |}.

(** The last contract of [cs] with the symbol [s], if any. *)
Definition last_with_symbol (s : pystr) (cs : list ContractData)
    : option ContractData :=
  last (List.filter (fun c => pystr_eqb (contract_symbol c) s) cs).

(** Every file of [old] is in [new], with its text as a prefix. *)
Definition only_appended (old new : gmap pystr pystr) : Prop :=
  forall name text,
    old !! name = Some text -> exists more, new !! name = Some (text ++ more).

(** No key and no value of the dictionary has a full-width comma. *)
Definition comma_free (d : snapshot) : bool :=
  forallb (fun kv => negb (contains fullwidth_comma (fst kv))
                     && negb (contains fullwidth_comma (snd kv))) d.

(** The event brings no full-width comma: not in the exchange of the
    contract, not in the dictionary of the tick. *)
Definition comma_free_event (ev : recorder_events.event) : bool :=
  match ev with
  | recorder_events.CONTRACT c =>
      negb (contains fullwidth_comma (contract_exchange c))
  | recorder_events.ORIGINAL_TICK _ o_tick => comma_free o_tick
  end.

(** The keys of the dictionary that the assembler reads. *)
Definition read_keys : list pystr :=
  List.map str
    (["UpdateTime"; "ActionDay"; "localtime"; "UpdateMillisec"]%string
     ++ required_numeric ++ depth_keys).

(** The only [KeyError] of [r] is for a key that the assembler reads and
    that [data] does not have. *)
Definition raises_for_missing_key {A : Type} (data : snapshot) (r : Res A)
    : Prop :=
  forall k, r = Raise (KeyError k) ->
            In k read_keys /\ dict_get data k = None.

(** A reading of [datetime.now()] with a year of four digits, whatever its
    microseconds. *)
Definition clock_reading (dt : datetime) : bool :=
  (1000 <=? year dt) && (year dt <=? 9999)
  && (1 <=? month dt) && (month dt <=? 12)
  && (1 <=? day dt) && (day dt <=? days_in_month (year dt) (month dt))
  && (hour dt <? 24) && (minute dt <? 60) && (second dt <? 60).

(** The reading without its microseconds. *)
Definition to_the_second (dt : datetime) : datetime :=
  {| year := year dt; month := month dt; day := day dt;
     hour := hour dt; minute := minute dt; second := second dt;
     microsecond := 0 |}.

(** The file of a [vt_symbol] in a folder of journals:
    [f"{self.vt_symbol}.txt"]. *)
Definition journal_name (vt_symbol : pystr) : pystr := vt_symbol ++ str ".txt".

(** [TickToBarConverter.start] up to the call of [_to_csv], the two folders
    being the texts of their files, by name: a folder without the file of the
    [vt_symbol] is passed over, and so is an empty text. *)
Definition start `{Host} (self : transform_tick_data.TickToBarConverter)
    (tick_data_night tick_data_day : gmap pystr pystr)
    : Res transform_tick_data.TickToBarConverter :=
  for_each
    (fun self folder =>
       match folder !! journal_name (transform_tick_data.vt_symbol self) with
       | None => mret self
       | Some [] => mret self
       | Some data_str =>
           transform_tick_data._process_tick_string self data_str
       end)
    self [tick_data_night; tick_data_day].

(** ** Sample data *)

Definition two_fields : snapshot :=
  [item "InstrumentID" "IC2412"; item "ExchangeID" "CFFEX"].

(** The scenario with one field of level 2: a price, a volume. *)
Definition with_bid_price_2 : snapshot := scenario ++ [item "BidPrice2" "3899.8"].
Definition with_bid_volume_2 : snapshot := scenario ++ [item "BidVolume2" "3"].

(** The scenario with the sixteen fields of levels 2 to 5. *)
Definition all_levels : snapshot :=
  scenario ++
  [item "BidPrice2" "3899.8"; item "BidPrice3" "3899.6";
   item "BidPrice4" "3899.4"; item "BidPrice5" MAX_TEXT;
   item "AskPrice2" "3900.6"; item "AskPrice3" "3900.8";
   item "AskPrice4" "3901"; item "AskPrice5" MAX_TEXT;
   item "BidVolume2" "3"; item "BidVolume3" "1";
   item "BidVolume4" "4"; item "BidVolume5" "0";
   item "AskVolume2" "2"; item "AskVolume3" "6";
   item "AskVolume4" "5"; item "AskVolume5" "0"].

(** A futures contract, and an option: [Product.OPTION], whose value is the
    two characters U+671F U+6743. *)
Definition IC2412 : ContractData :=
  {| contract_symbol := str "IC2412"; contract_exchange := str "CFFEX";
     contract_product := FUTURES |}.

Definition IO2412 : ContractData :=
  {| contract_symbol := str "IO2412-C-4000"; contract_exchange := str "CFFEX";
     contract_product := NOT_FUTURES [26399; 26435] |}.

Definition noon : datetime :=
  {| year := 2024; month := 12; day := 10;
     hour := 12; minute := 0; second := 0; microsecond := 0 |}.

(** * Properties *)

(** ** The library functions on small inputs *)

Example replace_ex :
  replace (str "''") [] (str "a'''b''''c'") = str "a'bc'".
Proof. reflexivity. Qed.

Example split_ex :
  split (str ": ") (str "k: v: : w") = [str "k"; str "v"; []; str "w"].
Proof. reflexivity. Qed.

Example rsplit1_ex :
  rsplit1 46 (str "a.b.c") = Some (str "a.b", str "c").
Proof. reflexivity. Qed.

Example repr_dict_ex :
  @repr_dict ascii_host two_fields
  = str "{'InstrumentID': 'IC2412', 'ExchangeID': 'CFFEX'}".
Proof. reflexivity. Qed.

Example repr_ex :
  @repr ascii_host (str "it's") = [34] ++ str "it's" ++ [34]
  /\ @repr ascii_host [97; 10; 233] = str "'a\n\xe9'".
Proof. split; reflexivity. Qed.

Example tick_dict_ex :
  tick_dict (str "{InstrumentID: IC2412" ++ FIELD_SEP ++ str "ActionDay: ''"
             ++ FIELD_SEP ++ str "UpdateTime: 09:30:00}")
  = [(str "InstrumentID", str "IC2412"); (str "ActionDay", []);
     (str "UpdateTime", str "09:30:00")].
Proof. reflexivity. Qed.

Example float_of_str_ex :
  @float_of_str ascii_host (str "0.1")
  = Ok (S754_finite false 7205759403792794 (-56))
  /\ @float_of_str ascii_host (str " -1_0.5e-3 ")
     = Ok (S754_finite true 6052837899185947 (-59))
  /\ @float_of_str ascii_host (str "1e400") = Ok (S754_infinity false)
  /\ @float_of_str ascii_host (str "4.9e-324") = Ok (S754_finite false 1 (-1074))
  /\ @float_of_str ascii_host (str "1e") = Raise ValueError
  /\ @float_of_str ascii_host [] = Raise ValueError.
Proof. repeat split; vm_compute; reflexivity. Qed.

Example strptime_ex :
  @strptime_exchange ascii_host (str "2024110 9:3:0.5")
  = Ok {| year := 2024; month := 1; day := 10;
          hour := 9; minute := 3; second := 0; microsecond := 500000 |}
  /\ @strptime_exchange ascii_host (str "20240230 09:30:00.500")
     = Raise ValueError
  /\ @strptime_exchange ascii_host (str "20241210 09:30:00.5000000")
     = Raise ValueError
  /\ @strptime_exchange ascii_host (str "20241210 09:30:60.500")
     = Raise ValueError.
Proof. repeat split; vm_compute; reflexivity. Qed.

(** Two lines without quotes replay as two ticks, in the order of the
    lines. *)
Example replay_ex :
  exists first second,
    @assemble ascii_host (str "IC2412.CFFEX") scenario = Ok (Some first)
    /\ @assemble ascii_host (str "IC2412.CFFEX") all_levels = Ok (Some second)
    /\ @transform_tick_data._process_tick_string ascii_host
         {| transform_tick_data.vt_symbol := str "IC2412.CFFEX";
            transform_tick_data.bg := [] |}
         ([10] ++ bare_line scenario ++ [10] ++ bare_line all_levels)
       = Ok {| transform_tick_data.vt_symbol := str "IC2412.CFFEX";
               transform_tick_data.bg := [first; second] |}.
Proof. do 2 eexists. repeat split; vm_compute; reflexivity. Qed.

(** ** Strings *)

Lemma startswith_app (p t : pystr) : startswith p (p ++ t) = true.
Proof.
  induction p as [|c p IH]; simpl; [reflexivity|].
  now rewrite N.eqb_refl, IH.
Qed.

Lemma startswith_inv (p s : pystr) :
  startswith p s = true -> exists t, s = p ++ t.
Proof.
  revert s; induction p as [|c p IH]; intros s Hs; simpl in *.
  - now exists s.
  - destruct s as [|x s]; [discriminate|].
    apply andb_true_iff in Hs as [Hc Hp].
    apply N.eqb_eq in Hc as ->.
    destruct (IH _ Hp) as [t ->]. now exists t.
Qed.

Lemma free_nil (sep : pystr) : sep <> [] -> free sep [].
Proof.
  intros Hsep a b Heq. symmetry in Heq.
  apply app_eq_nil in Heq as [_ Heq].
  apply app_eq_nil in Heq as [Heq _]. contradiction.
Qed.

Lemma free_tail (sep : pystr) c s : free sep (c :: s) -> free sep s.
Proof. intros Hf a b ->. now apply (Hf (c :: a) b). Qed.

Lemma free_head (sep : pystr) s : free sep s -> startswith sep s = false.
Proof.
  intros Hf. destruct (startswith sep s) eqn:E; [|reflexivity].
  apply startswith_inv in E as [t ->]. now destruct (Hf [] t).
Qed.

Lemma free_cons (sep : pystr) c s :
  startswith sep (c :: s) = false -> free sep s -> free sep (c :: s).
Proof.
  intros Hs Hf a b Heq. destruct a as [|x a]; simpl in Heq.
  - rewrite Heq, startswith_app in Hs. discriminate.
  - injection Heq as _ ->. now apply (Hf a b).
Qed.

(** ** [split] *)

Lemma split_from_skip sep (p : pystr) cur s :
  split_from sep (List.length p) cur (p ++ s) = split_from sep 0 cur s.
Proof. induction p as [|c p IH]; simpl; [reflexivity | exact IH]. Qed.

Lemma split_from_hit sep cur t :
  sep <> [] ->
  split_from sep 0 cur (sep ++ t) = List.rev cur :: split_from sep 0 [] t.
Proof.
  intros Hsep. destruct sep as [|c sep]; [contradiction|].
  change ((c :: sep) ++ t) with (c :: (sep ++ t)).
  cbn [split_from].
  change (c :: sep ++ t) with ((c :: sep) ++ t).
  rewrite startswith_app. cbn [List.length Nat.pred].
  now rewrite split_from_skip.
Qed.

Lemma split_from_free sep cur s :
  free sep s -> split_from sep 0 cur s = [List.rev cur ++ s].
Proof.
  revert cur; induction s as [|c s IH]; intros cur Hf.
  - simpl. now rewrite app_nil_r.
  - cbn [split_from]. rewrite (free_head _ _ Hf).
    rewrite IH by (eapply free_tail; eauto).
    simpl. now rewrite <- app_assoc.
Qed.

(** The first occurrence of a separator of two different characters. *)
Lemma free_before_pair (x y : N) c k v :
  x <> y -> free [x; y] (c :: k) ->
  startswith [x; y] (c :: k ++ [x; y] ++ v) = false.
Proof.
  intros Hxy Hf. simpl.
  destruct (N.eqb_spec x c) as [<-|]; [|reflexivity]. simpl.
  destruct k as [|d k]; simpl.
  - destruct (N.eqb_spec y x); [congruence | reflexivity].
  - destruct (N.eqb_spec y d) as [<-|]; [|reflexivity].
    now destruct (Hf [] k).
Qed.

Lemma split_from_first (x y : N) cur k v :
  x <> y -> free [x; y] k ->
  split_from [x; y] 0 cur (k ++ [x; y] ++ v)
  = (List.rev cur ++ k) :: split_from [x; y] 0 [] v.
Proof.
  intros Hxy. revert cur; induction k as [|c k IH]; intros cur Hf.
  - rewrite app_nil_r. apply (split_from_hit [x; y]). discriminate.
  - change ((c :: k) ++ [x; y] ++ v) with (c :: k ++ [x; y] ++ v).
    cbn [split_from]. rewrite free_before_pair by assumption.
    rewrite IH by (eapply free_tail; eauto).
    simpl. now rewrite <- app_assoc.
Qed.

Lemma first_occurrence (sep s : pystr) :
  sep <> [] ->
  free sep s \/ exists a b, s = a ++ sep ++ b /\ free sep a.
Proof.
  destruct sep as [|x sep]; [contradiction | intros _].
  induction s as [|c s IH].
  - left. apply free_nil. discriminate.
  - destruct (startswith (x :: sep) (c :: s)) eqn:E.
    + apply startswith_inv in E as [t ->]. right. exists [], t.
      split; [reflexivity | apply free_nil; discriminate].
    + destruct IH as [Hf | (a & b & -> & Hf)].
      * left. now apply free_cons.
      * right. exists (c :: a), b. split; [reflexivity|].
        apply free_cons; [|assumption].
        destruct (startswith (x :: sep) (c :: a)) eqn:E'; [|reflexivity].
        apply startswith_inv in E' as [t Ht].
        change (c :: a ++ (x :: sep) ++ b) with ((c :: a) ++ (x :: sep) ++ b) in E.
        rewrite Ht, <- app_assoc, startswith_app in E. discriminate.
Qed.

Lemma split_from_nonempty sep k cur s : split_from sep k cur s <> [].
Proof.
  revert k cur; induction s as [|c s IH]; intros k cur; simpl; [discriminate|].
  destruct k; [|apply IH].
  destruct (startswith sep (c :: s)); [discriminate | apply IH].
Qed.

(** A text gives exactly two pieces when the separator occurs in it exactly
    once. *)
Lemma split_pair_iff (x y : N) (s k v : pystr) :
  x <> y ->
  split [x; y] s = [k; v]
  <-> s = k ++ [x; y] ++ v /\ free [x; y] k /\ free [x; y] v.
Proof.
  intros Hxy. unfold split. split.
  - intros Hs. destruct (first_occurrence [x; y] s ltac:(discriminate)) as [Hf | (a & b & -> & Hf)].
    + rewrite split_from_free in Hs by assumption. discriminate.
    + rewrite split_from_first in Hs by assumption.
      injection Hs as <- Hb. simpl in *.
      destruct (first_occurrence [x; y] b ltac:(discriminate)) as [Hfb | (a' & b' & -> & Hfa')].
      * rewrite split_from_free in Hb by assumption.
        injection Hb as <-. auto.
      * rewrite split_from_first in Hb by assumption.
        injection Hb as _ Hb. now apply split_from_nonempty in Hb.
  - intros (-> & Hk & Hv).
    rewrite split_from_first by assumption.
    now rewrite split_from_free by assumption.
Qed.

(** With a second occurrence there are three pieces or more. *)
Lemma split_two_occurrences (x y : N) (k v w : pystr) :
  x <> y ->
  exists p1 p2 p3 rest,
    split [x; y] (k ++ [x; y] ++ v ++ [x; y] ++ w) = p1 :: p2 :: p3 :: rest.
Proof.
  intros Hxy. unfold split.
  assert (Hgen : forall s cur, exists p rest,
            split_from [x; y] 0 cur s = p :: rest).
  { intros s cur. destruct (split_from [x; y] 0 cur s) eqn:E.
    - now apply split_from_nonempty in E.
    - eauto. }
  assert (Hocc : forall a b cur, exists p q rest,
            split_from [x; y] 0 cur (a ++ [x; y] ++ b) = p :: q :: rest).
  { intros a b cur.
    destruct (first_occurrence [x; y] (a ++ [x; y] ++ b) ltac:(discriminate))
      as [Hf | (a' & b' & -> & Hf)].
    - now destruct (Hf a b).
    - rewrite split_from_first by assumption.
      destruct (Hgen b' []) as (q & rest & ->). eauto. }
  destruct (first_occurrence [x; y] (k ++ [x; y] ++ v ++ [x; y] ++ w) ltac:(discriminate))
    as [Hf | (a & b & Heq & Hf)].
  - now destruct (Hf k (v ++ [x; y] ++ w)).
  - rewrite Heq, split_from_first by assumption.
    (* the rest [b] still holds an occurrence *)
    assert (Hb : exists a2 b2, b = a2 ++ [x; y] ++ b2).
    { clear Hgen Hocc. revert a Heq Hf.
      induction k as [|c k IH]; intros a Heq Hf.
      - destruct a as [|c1 [|c2 a]]; simplify_eq/=.
        + eauto.
        + now destruct (Hf [] a).
      - destruct a as [|c1 a]; simplify_eq/=.
        + destruct k as [|c2 k]; simplify_eq/=.
          exists k, (v ++ [x; y] ++ w). reflexivity.
        + eapply IH; eauto using free_tail. }
    destruct Hb as (a2 & b2 & ->).
    destruct (Hocc a2 b2 []) as (p & q & rest & ->). eauto.
Qed.

(** ** [replace] *)

Lemma replace_char (c : N) (s : pystr) :
  replace [c] [] s = List.filter (fun x => negb (x =? c)) s.
Proof.
  unfold replace. induction s as [|a s IH]; [reflexivity|].
  cbn [replace_from startswith List.filter List.length Nat.pred].
  rewrite (N.eqb_sym a c), andb_true_r.
  destruct (c =? a); simpl; [exact IH | now rewrite IH].
Qed.

Lemma replace_char_absent (c : N) (s : pystr) : ~ In c (replace [c] [] s).
Proof.
  rewrite replace_char, filter_In. intros [_ Hc].
  now rewrite N.eqb_refl in Hc.
Qed.

Lemma replace_char_id (c : N) (s : pystr) :
  ~ In c s -> replace [c] [] s = s.
Proof.
  intros Hc. rewrite replace_char.
  induction s as [|a s IH]; [reflexivity|]. simpl.
  destruct (N.eqb_spec a c) as [->|_]; simpl.
  - destruct Hc. now left.
  - f_equal. apply IH. intros Hin. apply Hc. now right.
Qed.

Lemma In_replace_from (old : pystr) k s d :
  In d (replace_from old [] k s) -> In d s.
Proof.
  revert k; induction s as [|a s IH]; intros k; simpl; [tauto|].
  destruct k; [|eauto].
  destruct (startswith old (a :: s)); simpl; [eauto|].
  intros [->|Hd]; eauto.
Qed.

Lemma In_replace (old : pystr) s d :
  old <> [] -> In d (replace old [] s) -> In d s.
Proof.
  destruct old; [contradiction | intros _]. apply In_replace_from.
Qed.

Lemma replace_pair_head (q : N) (s : pystr) :
  (forall t, s <> q :: t) ->
  forall t, replace_from [q; q] [] 0 s <> q :: t.
Proof.
  intros Hs t. destruct s as [|d s]; simpl; [discriminate|].
  destruct (N.eqb_spec q d) as [<-|Hd]; simpl.
  - now destruct (Hs s).
  - intros [= ->]. contradiction.
Qed.

Lemma replace_pair_free (q : N) (s : pystr) :
  free [q; q] (replace [q; q] [] s).
Proof.
  unfold replace.
  assert (Hn : forall n s, (List.length s <= n)%nat ->
            free [q; q] (replace_from [q; q] [] 0 s)).
  { clear s. induction n as [|n IH]; intros s Hlen.
    - destruct s; [|simpl in Hlen; lia]. apply free_nil. discriminate.
    - destruct s as [|c t]; [apply free_nil; discriminate|].
      cbn [replace_from]. destruct (startswith [q; q] (c :: t)) eqn:E.
      + apply startswith_inv in E as [t' Ht]. simpl in Ht.
        injection Ht as -> ->. simpl. apply IH. simpl in Hlen. lia.
      + apply free_cons; [|apply IH; simpl in Hlen; lia].
        simpl. destruct (N.eqb_spec q c) as [<-|]; [|reflexivity]. simpl.
        destruct (replace_from [q; q] [] 0 t) as [|d r] eqn:Er; [reflexivity|].
        destruct (N.eqb_spec q d) as [<-|]; [|reflexivity].
        exfalso. apply (replace_pair_head q t) with (t := r); [|exact Er].
        intros t' ->. simpl in E. now rewrite N.eqb_refl in E. }
  apply (Hn (List.length s)). lia.
Qed.

(** ** Dictionaries *)

Lemma pystr_eqb_eq (a b : pystr) : pystr_eqb a b = true <-> a = b.
Proof. unfold pystr_eqb. apply bool_decide_eq_true. Qed.

Lemma pystr_eqb_refl (a : pystr) : pystr_eqb a a = true.
Proof. now apply pystr_eqb_eq. Qed.

Lemma pystr_eqb_neq (a b : pystr) : a <> b -> pystr_eqb a b = false.
Proof. unfold pystr_eqb. apply bool_decide_eq_false. Qed.

Lemma pystr_eqb_sym (a b : pystr) : pystr_eqb a b = pystr_eqb b a.
Proof.
  destruct (pystr_eqb b a) eqn:E.
  - apply pystr_eqb_eq in E as ->. apply pystr_eqb_refl.
  - apply pystr_eqb_neq. intros ->. now rewrite pystr_eqb_refl in E.
Qed.

Lemma dict_get_set {V} (d : dict V) k v k' :
  dict_get (dict_set d k v) k' = if pystr_eqb k k' then Some v else dict_get d k'.
Proof.
  induction d as [|[k0 v0] d IH]; simpl.
  - reflexivity.
  - destruct (pystr_eqb k0 k) eqn:E; simpl.
    + apply pystr_eqb_eq in E as ->. now destruct (pystr_eqb k k').
    + destruct (pystr_eqb k0 k') eqn:E'; [|exact IH].
      apply pystr_eqb_eq in E' as ->. now rewrite pystr_eqb_sym, E.
Qed.

(** ** The line decoder *)

Lemma add_field_pair (d : snapshot) (k v : pystr) :
  free (str ": ") k -> free (str ": ") v ->
  add_field d (k ++ str ": " ++ v) = dict_set d k v.
Proof.
  intros Hk Hv. unfold add_field.
  assert (Hs : split (str ": ") (k ++ str ": " ++ v) = [k; v])
    by (apply (split_pair_iff 58 32); [discriminate | auto]).
  now rewrite Hs.
Qed.

Lemma add_field_inv (d : snapshot) (seg : pystr) :
  add_field d seg = d
  \/ exists k v, split (str ": ") seg = [k; v] /\ add_field d seg = dict_set d k v.
Proof.
  unfold add_field.
  destruct (split (str ": ") seg) as [|k [|v [|w rest]]]; eauto.
Qed.


Lemma add_field_two_colons (d : snapshot) (k v w : pystr) :
  add_field d (k ++ str ": " ++ v ++ str ": " ++ w) = d.
Proof.
  unfold add_field.
  destruct (split_two_occurrences 58 32 k v w) as (p1 & p2 & p3 & rest & Hs);
    [discriminate|].
  change (str ": ") with [58; 32]. now rewrite Hs.
Qed.


Lemma fold_add_field_other (segs : list pystr) (d : snapshot) (k : pystr) :
  (forall seg v, In seg segs -> split (str ": ") seg <> [k; v]) ->
  dict_get (fold_left add_field segs d) k = dict_get d k.
Proof.
  revert d; induction segs as [|seg segs IH]; intros d Hno; [reflexivity|].
  cbn [fold_left]. rewrite IH by (intros s v Hs; apply Hno; now right).
  destruct (add_field_inv d seg) as [-> | (k' & v' & Hs & ->)]; [reflexivity|].
  rewrite dict_get_set. destruct (pystr_eqb k' k) eqn:E; [|reflexivity].
  apply pystr_eqb_eq in E as ->. now destruct (Hno seg v' (or_introl eq_refl)).
Qed.



Lemma free_decide (sep s : pystr) :
  sep <> [] -> occurs_nowhere sep s = true -> free sep s.
Proof.
  intros Hsep. induction s as [|c s IH]; intros Hscan.
  - now apply free_nil.
  - apply andb_true_iff in Hscan as [Hh Ht].
    apply free_cons; [now apply negb_true_iff | auto].
Qed.

Ltac free_by_scan := apply free_decide; [discriminate | reflexivity].



(** ** Lines that the decoder reads back *)

Lemma replace_free (old new s : pystr) :
  old <> [] -> free old s -> replace old new s = s.
Proof.
  destruct old as [|x old]; [contradiction | intros _]. unfold replace.
  induction s as [|c s IH]; intros Hf; [reflexivity|].
  cbn [replace_from]. rewrite (free_head _ _ Hf).
  f_equal. apply IH. eapply free_tail; eauto.
Qed.

Lemma replace_char_app (c : N) (a b : pystr) :
  replace [c] [] (a ++ b) = replace [c] [] a ++ replace [c] [] b.
Proof. rewrite !replace_char. apply List.filter_app. Qed.

(** Two texts without occurrence give one when put together, unless the
    separator stands across their border. *)
Lemma free_app (x y : N) (a b : pystr) :
  free [x; y] a -> free [x; y] b ->
  (forall a', a <> a' ++ [x]) \/ (forall b', b <> y :: b') ->
  free [x; y] (a ++ b).
Proof.
  intros Ha Hb Hborder p s. revert p.
  induction a as [|c a IH]; intros p Heq.
  - now destruct (Hb p s).
  - destruct p as [|c' p]; simplify_eq/=.
    + destruct a as [|c2 a]; simplify_eq/=.
      * destruct Hborder as [Hl | Hr]; [now destruct (Hl []) | now destruct (Hr s)].
      * now destruct (Ha [] a).
    + eapply (IH (free_tail _ _ _ Ha)); [|eassumption].
      destruct Hborder as [Hl | Hr]; [left | now right].
      intros a' ->. now destruct (Hl (c' :: a')).
Qed.

Lemma not_ends_with (a : pystr) (x z : N) :
  x <> z -> forall a', a ++ [z] <> a' ++ [x].
Proof.
  intros Hxz a' Heq. apply app_inj_tail in Heq as [_ Heq]. congruence.
Qed.

Lemma free_bare_item (x y : N) (kv : pystr * pystr) :
  x <> 58 -> y <> 58 -> x <> 32 ->
  free [x; y] (fst kv) -> free [x; y] (snd kv) -> free [x; y] (bare_item kv).
Proof.
  intros Hx58 Hy58 Hx32 Hk Hv. unfold bare_item.
  change (str ": ") with [58; 32].
  apply free_app; [assumption | | right; intros b' [= Hy _]; congruence].
  change [58; 32] with ([58] ++ [32]).
  apply (free_app x y ([58] ++ [32]) (snd kv)); [|assumption|].
  - apply free_decide; [discriminate|]. cbn.
    destruct (N.eqb_spec x 58); [contradiction|].
    destruct (N.eqb_spec x 32); [contradiction|]. reflexivity.
  - left. now apply not_ends_with.
Qed.

Lemma free_join (x y : N) (fields : list pystr) :
  x <> 32 -> y <> fullwidth_comma -> x <> fullwidth_comma ->
  Forall (free [x; y]) fields -> free [x; y] (join FIELD_SEP fields).
Proof.
  intros Hx32 Hyc Hxc Hall. induction Hall as [|f rest Hf Hrest IH].
  - apply free_nil. discriminate.
  - destruct rest as [|g rest]; [exact Hf|].
    change (join FIELD_SEP (f :: g :: rest))
      with (f ++ FIELD_SEP ++ join FIELD_SEP (g :: rest)).
    apply free_app; [assumption | | right; intros b' [= Hy _]; congruence].
    unfold FIELD_SEP. change [fullwidth_comma; 32] with ([fullwidth_comma] ++ [32]).
    apply (free_app x y ([fullwidth_comma] ++ [32])); [|exact IH|].
    + apply free_decide; [discriminate|]. cbn.
      destruct (N.eqb_spec x fullwidth_comma); [contradiction|].
      destruct (N.eqb_spec x 32); [contradiction|]. reflexivity.
    + left. now apply not_ends_with.
Qed.

Lemma In_join (c : N) (fields : list pystr) :
  In c (join FIELD_SEP fields) ->
  In c FIELD_SEP \/ exists f, In f fields /\ In c f.
Proof.
  induction fields as [|f rest IH]; [intros []|].
  destruct rest as [|g rest].
  - intros Hin. right. exists f. split; [now left | exact Hin].
  - change (join FIELD_SEP (f :: g :: rest))
      with (f ++ FIELD_SEP ++ join FIELD_SEP (g :: rest)).
    rewrite !in_app_iff. intros [Hin | [Hin | Hin]].
    + right. exists f. split; [now left | exact Hin].
    + now left.
    + destruct (IH Hin) as [? | (f' & Hf' & Hc)]; [now left|].
      right. exists f'. split; [now right | exact Hc].
Qed.

Lemma split_join (fields : list pystr) :
  fields <> [] -> Forall (free FIELD_SEP) fields ->
  split FIELD_SEP (join FIELD_SEP fields) = fields.
Proof.
  intros Hne Hall. unfold split, FIELD_SEP.
  induction Hall as [|f rest Hf Hrest IH]; [contradiction|].
  destruct rest as [|g rest].
  - cbn [join]. now rewrite split_from_free.
  - change (join [fullwidth_comma; 32] (f :: g :: rest))
      with (f ++ [fullwidth_comma; 32] ++ join [fullwidth_comma; 32] (g :: rest)).
    rewrite split_from_first by (assumption || discriminate).
    cbn [List.rev app]. f_equal. apply IH. discriminate.
Qed.

Lemma dict_get_absent {V} (d : dict V) (k : pystr) :
  ~ In k (List.map fst d) -> dict_get d k = None.
Proof.
  induction d as [|[k0 v0] d IH]; [reflexivity|]. cbn. intros Hk.
  rewrite pystr_eqb_neq by (intros ->; apply Hk; now left).
  apply IH. intros Hin. apply Hk. now right.
Qed.

Lemma dict_set_fresh {V} (d : dict V) (k : pystr) (v : V) :
  ~ In k (List.map fst d) -> dict_set d k v = d ++ [(k, v)].
Proof.
  induction d as [|[k0 v0] d IH]; [reflexivity|]. cbn. intros Hk.
  rewrite pystr_eqb_neq by (intros ->; apply Hk; now left).
  f_equal. apply IH. intros Hin. apply Hk. now right.
Qed.

Lemma fold_add_field_bare (d acc : snapshot) :
  NoDup (List.map fst (acc ++ d)) ->
  Forall (fun kv => free (str ": ") (fst kv) /\ free (str ": ") (snd kv)) d ->
  fold_left add_field (List.map bare_item d) acc = acc ++ d.
Proof.
  revert acc; induction d as [|[k v] d IH]; intros acc Hnd Hall.
  - cbn. now rewrite app_nil_r.
  - apply List.Forall_cons_iff in Hall as [[Hk Hv] Hall]. cbn [List.map fold_left].
    change (bare_item (k, v)) with (k ++ str ": " ++ v).
    rewrite (add_field_pair acc k v) by assumption.
    assert (Hfresh : ~ In k (List.map fst acc)).
    { rewrite List.map_app in Hnd. apply NoDup_app in Hnd as (_ & Hdisj & _).
      intros Hin. apply list_elem_of_In in Hin.
      apply (Hdisj k Hin). cbn. apply list_elem_of_here. }
    rewrite dict_set_fresh by assumption.
    rewrite IH; [now rewrite <- app_assoc | | assumption].
    now rewrite <- app_assoc.
Qed.

(** The decoder on a line without quotes. *)
Lemma tick_dict_bare_line (d : snapshot) :
  well_formed d ->
  Forall (fun kv => field_text (fst kv) /\ field_text (snd kv)) d ->
  tick_dict (bare_line d) = d.
Proof.
  intros Hwf Hall. destruct d as [|kv0 d0]; [reflexivity|].
  set (d := kv0 :: d0) in *.
  set (body := join FIELD_SEP (List.map bare_item d)).
  assert (Hfields : forall c, In c (str "{}") ->
            ~ In c body).
  { intros c Hc Hin. apply In_join in Hin as [Hin | (f & Hf & Hin)].
    - cbn in Hc, Hin. unfold fullwidth_comma in Hin. lia.
    - apply in_map_iff in Hf as (kv & <- & Hkv).
      rewrite List.Forall_forall in Hall.
      destruct (Hall kv Hkv) as [(Hk1 & Hk2 & _) (Hv1 & Hv2 & _)].
      unfold bare_item in Hin. rewrite !in_app_iff in Hin.
      cbn in Hc. destruct Hc as [<- | [<- | []]];
        destruct Hin as [? | [Hin | ?]]; try contradiction;
        cbn in Hin; lia. }
  assert (Hquotes : free (str "''") body).
  { apply (free_join 39 39); [discriminate | discriminate | discriminate |].
    apply List.Forall_forall. intros f Hf.
    apply in_map_iff in Hf as (kv & <- & Hkv).
    rewrite List.Forall_forall in Hall.
    destruct (Hall kv Hkv) as [(_ & _ & Hk & _) (_ & _ & Hv & _)].
    apply (free_bare_item 39 39); (discriminate || assumption). }
  assert (Hclean : clean_str (bare_line d) = body).
  { unfold clean_str, bare_line. fold body.
    change (str "{") with [123]. change (str "}") with [125].
    rewrite (replace_char_app 123 [123] (body ++ [125])).
    rewrite (replace_char_app 123 body [125]).
    rewrite (replace_char_id 123 body) by (apply Hfields; cbn; tauto).
    change (replace [123] [] [123] ++ body ++ replace [123] [] [125])
      with (body ++ [125]).
    rewrite (replace_char_app 125 body [125]).
    rewrite (replace_char_id 125 body) by (apply Hfields; cbn; tauto).
    change (replace [125] [] [125]) with (@nil N). rewrite app_nil_r.
    apply replace_free; [discriminate | exact Hquotes]. }
  unfold tick_dict. rewrite Hclean. unfold body.
  rewrite split_join.
  - rewrite (fold_add_field_bare d []); [reflexivity | exact Hwf |].
    eapply Forall_impl; [exact Hall|].
    intros kv [(_ & _ & _ & Hk & _) (_ & _ & _ & Hv & _)]. auto.
  - discriminate.
  - apply List.Forall_forall. intros f Hf.
    apply in_map_iff in Hf as (kv & <- & Hkv).
    rewrite List.Forall_forall in Hall.
    destruct (Hall kv Hkv) as [(_ & _ & _ & _ & Hk) (_ & _ & _ & _ & Hv)].
    apply (free_bare_item fullwidth_comma 32); (discriminate || assumption).
Qed.

Ltac field_text_by_scan :=
  repeat split;
    try (intros Hin; vm_compute in Hin; intuition discriminate);
    free_by_scan.

(** X1: the decoder gives back every dictionary written as a line without
    quotes, when no key is there twice and the keys and values hold no
    brace, no pair of adjacent quotes, no ': ' and no full-width comma
    followed by a space. *)
Theorem decoder_inverts_bare_line (d : snapshot) :
  well_formed d ->
  Forall (fun kv => field_text (fst kv) /\ field_text (snd kv)) d ->
  tick_dict (bare_line d) = d.
Proof. apply tick_dict_bare_line. Qed.

Lemma decoder_inverts_bare_line_witness :
  tick_dict (bare_line scenario) = scenario.
Proof.
  apply decoder_inverts_bare_line.
  - apply (bool_decide_unpack _). vm_compute. reflexivity.
  - repeat constructor; field_text_by_scan.
Defined.

(** ** The session date *)

Lemma split_from_first_char (x : N) cur k v :
  ~ In x k ->
  split_from [x] 0 cur (k ++ x :: v)
  = (List.rev cur ++ k) :: split_from [x] 0 [] v.
Proof.
  revert cur; induction k as [|c k IH]; intros cur Hx.
  - rewrite app_nil_r. apply (split_from_hit [x]). discriminate.
  - simpl. destruct (N.eqb_spec x c) as [->|_]; simpl.
    + destruct Hx. now left.
    + rewrite IH by (intros Hin; apply Hx; now right).
      simpl. now rewrite <- app_assoc.
Qed.

Lemma dec_fixed_digits (w : nat) (n : N) :
  Forall (fun c => 48 <= c <= 57) (dec_fixed w n).
Proof.
  revert n; induction w as [|w IH]; intros n; simpl; [constructor|].
  apply Forall_app. split; [apply IH|].
  constructor; [|constructor].
  assert (Hlt : n mod 10 < 10) by (apply N.mod_lt; lia).
  cbv beta. revert Hlt. generalize (n mod 10). intros; lia.
Qed.

Lemma digits_without (c : N) (s : pystr) :
  c < 48 -> Forall (fun d => 48 <= d <= 57) s -> ~ In c s.
Proof.
  intros Hc Hs Hin. rewrite List.Forall_forall in Hs. apply Hs in Hin. lia.
Qed.

Lemma local_date_strftime (now : datetime) :
  local_date (strftime now)
  = dec_fixed 4 (year now) ++ dec_fixed 2 (month now) ++ dec_fixed 2 (day now).
Proof.
  unfold local_date, strftime.
  set (Y := dec_fixed 4 (year now)). set (M := dec_fixed 2 (month now)).
  set (D := dec_fixed 2 (day now)).
  assert (HY : Forall (fun d => 48 <= d <= 57) Y) by apply dec_fixed_digits.
  assert (HM : Forall (fun d => 48 <= d <= 57) M) by apply dec_fixed_digits.
  assert (HD : Forall (fun d => 48 <= d <= 57) D) by apply dec_fixed_digits.
  match goal with
  | |- context [split _ (?a ++ ?b ++ ?c ++ ?d ++ ?e ++ str " " ++ ?rest)] =>
      replace (a ++ b ++ c ++ d ++ e ++ str " " ++ rest)
        with ((a ++ b ++ c ++ d ++ e) ++ 32 :: rest)
        by (now rewrite <- !app_assoc)
  end.
  unfold split. change (str " ") with [32].
  rewrite split_from_first_char.
  - cbn [List.hd List.rev]. rewrite app_nil_l. change (str "-") with [45].
    rewrite replace_char, !List.filter_app.
    rewrite <- !replace_char.
    change (replace [45] [] [45]) with (@nil N). rewrite !app_nil_l.
    rewrite (replace_char_id 45 Y), (replace_char_id 45 M),
      (replace_char_id 45 D)
      by (apply digits_without; [lia | assumption]).
    reflexivity.
  - rewrite !in_app_iff. change (str "-") with [45].
    intros [Hin | [Hin | [Hin | [Hin | Hin]]]];
      try (revert Hin; apply digits_without; [lia | assumption]);
      simpl in Hin; lia.
Qed.

Lemma truthy_some (d : snapshot) k c v :
  dict_get d k = Some (c :: v) -> truthy d k = true.
Proof. unfold truthy. now intros ->. Qed.

Lemma truthy_false (d : snapshot) k :
  dict_get d k = None \/ dict_get d k = Some [] -> truthy d k = false.
Proof. unfold truthy. now intros [-> | ->]. Qed.

Lemma dict_item_some {V} (d : dict V) k v :
  dict_get d k = Some v -> dict_item d k = Ok v.
Proof. unfold dict_item. now intros ->. Qed.

Lemma date_str_dce (data : snapshot) lt :
  dict_get data (str "localtime") = Some lt ->
  date_str data DCE = Ok (local_date lt).
Proof.
  intros Hlt. unfold date_str.
  rewrite pystr_eqb_refl, orb_true_r, (dict_item_some _ _ _ Hlt). reflexivity.
Qed.

Lemma date_str_action_day (data : snapshot) exchange c day :
  exchange <> DCE ->
  dict_get data (str "ActionDay") = Some (c :: day) ->
  date_str data exchange = Ok (c :: day).
Proof.
  intros Hex Hget. unfold date_str.
  rewrite (pystr_eqb_neq _ _ Hex), orb_false_r.
  rewrite (truthy_some _ _ _ _ Hget). now apply dict_item_some.
Qed.

Lemma date_str_local (data : snapshot) exchange lt :
  dict_get data (str "ActionDay") = None
  \/ dict_get data (str "ActionDay") = Some [] ->
  dict_get data (str "localtime") = Some lt ->
  date_str data exchange = Ok (local_date lt).
Proof.
  intros Hget Hlt. unfold date_str.
  rewrite (truthy_false _ _ Hget), (dict_item_some _ _ _ Hlt). reflexivity.
Qed.

(** C5: the trading date of a snapshot that carries its local receipt time.
    For the night-rollover exchange (DCE) it is the date part of the local
    receipt time, whatever [ActionDay] holds; for any other exchange it is
    [ActionDay] as it stands when that is present and not empty, and the date
    part of the local receipt time otherwise. The date part of a receipt time
    written by the recorder is its year, month and day, eight digits. *)
Theorem date_str_resolution (data : snapshot) (exchange : Exchange) (lt : pystr) :
  dict_get data (str "localtime") = Some lt ->
  (exchange = DCE -> date_str data exchange = Ok (local_date lt))
  /\ (exchange <> DCE ->
      forall action_day,
        action_day <> [] ->
        dict_get data (str "ActionDay") = Some action_day ->
        date_str data exchange = Ok action_day)
  /\ (exchange <> DCE ->
      dict_get data (str "ActionDay") = None
      \/ dict_get data (str "ActionDay") = Some [] ->
      date_str data exchange = Ok (local_date lt))
  /\ (forall now : datetime,
        local_date (strftime now)
        = dec_fixed 4 (year now) ++ dec_fixed 2 (month now)
          ++ dec_fixed 2 (day now)).
Proof.
  intros Hlt. repeat split.
  - intros ->. now apply date_str_dce.
  - intros Hex [|c day] Hday Hget; [contradiction|].
    now apply date_str_action_day.
  - intros _ Hget. now apply date_str_local.
  - apply local_date_strftime.
Qed.

Lemma date_str_resolution_witness :
  date_str scenario (str "CFFEX") = Ok (str "20241210")
  /\ date_str scenario DCE = Ok (str "20241210")
  /\ date_str (dict_set scenario (str "ActionDay") []) (str "CFFEX")
     = Ok (str "20241210").
Proof.
  split; [|split].
  - destruct (date_str_resolution scenario (str "CFFEX")
                (str "2024-12-10 09:30:00") eq_refl) as (_ & H & _).
    apply H; [discriminate | discriminate | reflexivity].
  - destruct (date_str_resolution scenario DCE
                (str "2024-12-10 09:30:00") eq_refl) as (H & _).
    apply H. reflexivity.
  - destruct (date_str_resolution (dict_set scenario (str "ActionDay") [])
                (str "CFFEX") (str "2024-12-10 09:30:00") eq_refl)
      as (_ & _ & H & _).
    apply H; [discriminate | right; reflexivity].
Defined.

(** ** The missing update time *)

(** C6: when [UpdateTime] is absent or empty, the assembler returns at once:
    no tick is constructed, [self.bg.update_tick] is given nothing and nothing
    is raised, in the converter and in the loader. *)
Theorem missing_update_time_is_discarded `{Host}
    (vt : pystr) (data : snapshot) :
  dict_get data (str "UpdateTime") = None
  \/ dict_get data (str "UpdateTime") = Some [] ->
  assemble vt data = Ok None
  /\ (forall self : transform_tick_data.TickToBarConverter,
        transform_tick_data._generate_tick self data = Ok self)
  /\ (forall self : load_tick_data.TickFileLoader,
        load_tick_data._dict_to_tick self data = Ok tt).
Proof.
  intros Hut. apply truthy_false in Hut.
  assert (Ha : forall vt, assemble vt data = Ok None).
  { intros vt'. unfold assemble, construct. now rewrite Hut. }
  repeat split.
  - apply Ha.
  - intros self. unfold transform_tick_data._generate_tick. now rewrite Ha.
  - intros self. unfold load_tick_data._dict_to_tick. now rewrite Ha.
Qed.

Lemma missing_update_time_is_discarded_witness :
  @assemble ascii_host (str "IC2412.CFFEX")
    (dict_set scenario (str "UpdateTime") []) = Ok None
  /\ @load_tick_data._dict_to_tick ascii_host
       {| load_tick_data.vt_symbol := str "IC2412.CFFEX" |}
       [item "InstrumentID" "IC2412"] = Ok tt.
Proof.
  split.
  - apply (@missing_update_time_is_discarded ascii_host). right. reflexivity.
  - destruct (@missing_update_time_is_discarded ascii_host (str "IC2412.CFFEX")
                [item "InstrumentID" "IC2412"] (or_introl eq_refl))
      as (_ & _ & Hloader).
    apply Hloader.
Defined.

(** ** The sanitizer *)

Lemma float_max_eq : float_max = S754_finite false 9007199254740991 971.
Proof. vm_compute. reflexivity. Qed.

Lemma SFeqb_float_max (p : float) :
  SFeqb p float_max = true <-> p = float_max.
Proof.
  rewrite float_max_eq.
  split; [|intros ->; reflexivity].
  unfold SFeqb.
  destruct p as [s|s| |s m e]; cbn [SFcompare].
  all: try (destruct s; discriminate).
  - discriminate.
  - destruct s; [discriminate|].
    destruct (Z.compare_spec e 971) as [->| |]; try discriminate.
    destruct (Pos.compare_cont Eq m 9007199254740991) eqn:E; try discriminate.
    apply Pos.compare_eq in E. intros _. now rewrite E.
Qed.

Lemma adjust_price_never_max (p : float) : is_float_max (_adjust_price p) = false.
Proof.
  unfold _adjust_price. destruct (SFeqb p float_max) eqn:E; [reflexivity|].
  exact E.
Qed.

(** C8: the sanitizer is a function of its argument alone; it gives the
    integer 0 for the largest float and gives back every other float,
    negative ones, infinities and NaN included, as it is. *)
Theorem adjust_price_only_alters_float_max (price : float) :
  _adjust_price float_max = PyInt 0
  /\ (price <> float_max -> _adjust_price price = PyFloat price).
Proof.
  split; [vm_compute; reflexivity|].
  intros Hneq. unfold _adjust_price.
  destruct (SFeqb price float_max) eqn:E; [|reflexivity].
  now apply SFeqb_float_max in E.
Qed.

Lemma adjust_price_only_alters_float_max_witness :
  _adjust_price float_max = PyInt 0
  /\ _adjust_price (S754_finite true 4503599627370496 (-52))
     = PyFloat (S754_finite true 4503599627370496 (-52)).
Proof.
  destruct (adjust_price_only_alters_float_max
              (S754_finite true 4503599627370496 (-52))) as [H0 Hid].
  split; [exact H0 | apply Hid; discriminate].
Defined.

(** ** The result monad *)

Lemma bind_Ok {A B} (r : Res A) (k : A -> Res B) (b : B) :
  r ≫= k = Ok b -> exists a, r = Ok a /\ k a = Ok b.
Proof. destruct r as [a|e]; [eauto | discriminate]. Qed.

Lemma fmap_Ok {A B} (f : A -> B) (r : Res A) (b : B) :
  f <$> r = Ok b -> exists a, r = Ok a /\ b = f a.
Proof. destruct r as [a|e]; [intros [= <-]; eauto | discriminate]. Qed.

Lemma not_Ok_raised {A} (r : Res A) : (forall a, r <> Ok a) -> raised r.
Proof. destruct r as [a|e]; [intros Hr; now destruct (Hr a) | now exists e]. Qed.

Ltac res_inv H :=
  repeat match type of H with
    | _ ≫= _ = Ok _ =>
        let a := fresh "a" in let E := fresh "E" in
        apply bind_Ok in H as (a & E & H)
    end.

Section Assembler.
Context `{Host}.

Lemma adjusted_Ok data key n : adjusted data key = Ok n -> sanitized data key n.
Proof. intros Hn. apply fmap_Ok in Hn as (x & Hx & ->). now exists x. Qed.

Lemma raw_Ok data key n : raw data key = Ok n -> verbatim data key n.
Proof. intros Hn. apply fmap_Ok in Hn as (x & Hx & ->). now exists x. Qed.

Lemma construct_inv vt data tick :
  construct vt data = Ok (Some tick) ->
  truthy data (str "UpdateTime") = true
  /\ Forall (fun kf => sanitized data (fst kf) (snd kf tick)) adjusted_prices
  /\ Forall (fun kf => verbatim data (fst kf) (snd kf tick)) raw_fields
  /\ depth tick = None.
Proof.
  unfold construct. destruct (truthy data (str "UpdateTime")); [|discriminate].
  cbn [negb]. intros Hc. res_inv Hc. destruct a as [sym ex]. res_inv Hc.
  injection Hc as <-. cbn.
  repeat match goal with
    | E : adjusted _ _ = Ok _ |- _ => apply adjusted_Ok in E
    | E : raw _ _ = Ok _ |- _ => apply raw_Ok in E
    end.
  split; [reflexivity|]. split; [|split; [|reflexivity]];
    repeat constructor; assumption.
Qed.

Lemma read_depth_inv data d :
  read_depth data = Ok d ->
  Forall (fun kf => sanitized data (fst kf) (snd kf d)) adjusted_depth_prices
  /\ Forall (fun kf => verbatim data (fst kf) (snd kf d)) depth_volumes.
Proof.
  unfold read_depth. intros Hd. res_inv Hd. injection Hd as <-. cbn.
  repeat match goal with
    | E : adjusted _ _ = Ok _ |- _ => apply adjusted_Ok in E
    | E : raw _ _ = Ok _ |- _ => apply raw_Ok in E
    end.
  split; repeat constructor; assumption.
Qed.

Lemma read_depth_needs_keys data d key :
  read_depth data = Ok d -> In key depth_keys ->
  exists v, dict_get data (str key) = Some v.
Proof.
  intros Hd Hin. apply read_depth_inv in Hd as [Hp Hv].
  unfold depth_keys in Hin. apply in_app_iff in Hin.
  assert (Hitem : forall x, float_item data key = Ok x ->
            exists v, dict_get data (str key) = Some v).
  { unfold float_item, dict_item. intros x.
    destruct (dict_get data (str key)); [eauto | discriminate]. }
  destruct Hin as [Hin | Hin]; apply in_map_iff in Hin as ([k f] & <- & Hin).
  - rewrite List.Forall_forall in Hp. destruct (Hp _ Hin) as (x & Hx & _). eauto.
  - rewrite List.Forall_forall in Hv. destruct (Hv _ Hin) as (x & Hx & _). eauto.
Qed.

Lemma sanitized_never_max data key n :
  sanitized data key n ->
  is_float_max n = false
  /\ (float_item data key = Ok float_max -> n = PyInt 0).
Proof.
  intros (x & Hx & ->). split; [apply adjust_price_never_max|].
  rewrite Hx. intros [= ->]. vm_compute. reflexivity.
Qed.

Lemma assemble_inv vt data tick :
  assemble vt data = Ok (Some tick) ->
  exists top,
    construct vt data = Ok (Some top)
    /\ ((has_depth data = false /\ tick = top)
        \/ (has_depth data = true
            /\ exists d, read_depth data = Ok d /\ tick = with_depth top d)).
Proof.
  unfold assemble. intros Ha. apply bind_Ok in Ha as ([top|] & Hc & Ha);
    [|discriminate].
  exists top. split; [assumption|].
  destruct (has_depth data); [right | left].
  - apply bind_Ok in Ha as (d & Hd & Ha). injection Ha as <-. eauto.
  - injection Ha as <-. auto.
Qed.

(** C2 (as amended): in every tick that the assembler builds, each of the
    prices last, open, high, low, pre-close, bid 1 and ask 1, and each bid and
    ask price of levels 2 to 5 when they are assigned, is the sanitizer's
    result on the float read from its key: it is never the largest float, and
    it is 0 when the float read is the largest float. The limit-up and
    limit-down prices are the floats read, as they are. *)
Theorem assembled_prices_are_sanitized vt data tick :
  assemble vt data = Ok (Some tick) ->
  Forall (fun kf => sanitized data (fst kf) (snd kf tick)) adjusted_prices
  /\ (forall d, depth tick = Some d ->
        Forall (fun kf => sanitized data (fst kf) (snd kf d))
          adjusted_depth_prices)
  /\ verbatim data "UpperLimitPrice" (limit_up tick)
  /\ verbatim data "LowerLimitPrice" (limit_down tick)
  /\ (forall key n,
        sanitized data key n ->
        is_float_max n = false
        /\ (float_item data key = Ok float_max -> n = PyInt 0)).
Proof.
  intros Ha. apply assemble_inv in Ha as (top & Hc & Hd).
  apply construct_inv in Hc as (_ & Hp & Hr & Hnone).
  assert (Hlim : verbatim data "UpperLimitPrice" (limit_up top)
                 /\ verbatim data "LowerLimitPrice" (limit_down top)).
  { rewrite List.Forall_forall in Hr. split.
    - apply (Hr ("UpperLimitPrice"%string, limit_up)). cbn. tauto.
    - apply (Hr ("LowerLimitPrice"%string, limit_down)). cbn. tauto. }
  destruct Hlim as [Hup Hdown].
  assert (Hdepth : forall d, depth tick = Some d ->
            Forall (fun kf => sanitized data (fst kf) (snd kf d))
              adjusted_depth_prices).
  { destruct Hd as [[_ ->] | (_ & d & Hd & ->)].
    - intros d Hsome. congruence.
    - intros d' [= <-]. now apply read_depth_inv in Hd as [Hd _]. }
  assert (Htop : Forall (fun kf => sanitized data (fst kf) (snd kf tick))
                   adjusted_prices
                 /\ limit_up tick = limit_up top
                 /\ limit_down tick = limit_down top).
  { destruct Hd as [[_ ->] | (_ & d & _ & ->)]; [auto|].
    split; [|split; reflexivity].
    rewrite List.Forall_forall in Hp |- *. intros [k f] Hin.
    specialize (Hp (k, f) Hin). cbn in Hin.
    repeat (destruct Hin as [[= <- <-] | Hin]; [exact Hp|]).
    destruct Hin. }
  destruct Htop as (Hprices & -> & ->).
  split; [exact Hprices|]. split; [exact Hdepth|].
  split; [exact Hup|]. split; [exact Hdown|].
  intros key n. apply sanitized_never_max.
Qed.

Lemma has_depth_iff data :
  has_depth data = true
  <-> (exists c v, dict_get data (str "BidVolume2") = Some (c :: v))
      \/ (exists c v, dict_get data (str "AskVolume2") = Some (c :: v)).
Proof.
  unfold has_depth, truthy. rewrite orb_true_iff. split.
  - intros [Hb | Ha]; [left | right].
    + destruct (dict_get data (str "BidVolume2")) as [[|c v]|]; try discriminate; eauto.
    + destruct (dict_get data (str "AskVolume2")) as [[|c v]|]; try discriminate; eauto.
  - intros [(c & v & ->) | (c & v & ->)]; auto.
Qed.

(** C3 (as amended): once the tick is constructed, the assembler looks at
    [BidVolume2] and [AskVolume2] only. When one of them is present and not
    empty it assigns the sixteen attributes of levels 2 to 5 from their keys,
    and raises when one of the sixteen keys is missing; it builds no tick
    otherwise than with all sixteen. When neither is, the tick is left
    without levels 2 to 5 and nothing is raised, whatever the other depth
    keys hold. *)
Theorem depth_follows_level_2_volumes vt data top :
  construct vt data = Ok (Some top) ->
  (has_depth data = true
   <-> (exists c v, dict_get data (str "BidVolume2") = Some (c :: v))
       \/ (exists c v, dict_get data (str "AskVolume2") = Some (c :: v)))
  /\ (has_depth data = true ->
      (forall d, read_depth data = Ok d ->
         assemble vt data = Ok (Some (with_depth top d))
         /\ Forall (fun kf => sanitized data (fst kf) (snd kf d))
              adjusted_depth_prices
         /\ Forall (fun kf => verbatim data (fst kf) (snd kf d))
              depth_volumes)
      /\ (forall key, In key depth_keys ->
                      dict_get data (str key) = None ->
                      raised (assemble vt data))
      /\ (forall tick, assemble vt data = Ok (Some tick) ->
                       exists d, read_depth data = Ok d
                                 /\ tick = with_depth top d))
  /\ (has_depth data = false ->
      assemble vt data = Ok (Some top) /\ depth top = None).
Proof.
  intros Hc. split; [apply has_depth_iff|]. split.
  - intros Hgate. unfold assemble. rewrite Hc. cbn. rewrite Hgate.
    split; [|split].
    + intros d Hd. rewrite Hd. cbn. split; [reflexivity|].
      now apply read_depth_inv.
    + intros key Hin Hnone. destruct (read_depth data) as [d|e] eqn:Hd.
      * destruct (read_depth_needs_keys _ _ _ Hd Hin) as [v Hv]. congruence.
      * now exists e.
    + intros tick Ha. apply bind_Ok in Ha as (d & Hd & Ha).
      injection Ha as <-. eauto.
  - intros Hgate. unfold assemble. rewrite Hc. cbn. rewrite Hgate.
    split; [reflexivity|]. now apply construct_inv in Hc.
Qed.
End Assembler.

Lemma scenario_assembles :
  exists tick,
    @assemble ascii_host (str "IC2412.CFFEX") scenario = Ok (Some tick)
    /\ @construct ascii_host (str "IC2412.CFFEX") scenario = Ok (Some tick)
    /\ limit_up tick = PyFloat float_max
    /\ last_price tick = PyInt 0.
Proof. eexists. repeat split; vm_compute; reflexivity. Qed.

Section Scenario.
Context `{Host}.

Lemma float_of_max_text : float_of_str (str MAX_TEXT) = Ok float_max.
Proof. vm_compute. reflexivity. Qed.

Lemma strptime_exchange_scenario :
  strptime_exchange (str "20241210" ++ str " " ++ str "09:30:00" ++ str "."
                     ++ str "500")
  = Ok {| year := 2024; month := 12; day := 10;
          hour := 9; minute := 30; second := 0; microsecond := 500000 |}.
Proof. vm_compute. reflexivity. Qed.

Lemma strptime_local_scenario :
  strptime_local (str "2024-12-10 09:30:00")
  = Ok {| year := 2024; month := 12; day := 10;
          hour := 9; minute := 30; second := 0; microsecond := 0 |}.
Proof. vm_compute. reflexivity. Qed.

Lemma extract_vt_symbol_cffex :
  In (str "CFFEX") exchange_values ->
  extract_vt_symbol (str "IC2412.CFFEX") = Ok (str "IC2412", str "CFFEX").
Proof.
  intros Hin. unfold extract_vt_symbol.
  change (rsplit1 46 (str "IC2412.CFFEX")) with (Some (str "IC2412", str "CFFEX")).
  cbv beta iota.
  assert (Hex : existsb (pystr_eqb (str "CFFEX")) exchange_values = true).
  { apply existsb_exists. exists (str "CFFEX"). split; [assumption|].
    apply pystr_eqb_refl. }
  now rewrite Hex.
Qed.

(** C7: the scenario. A snapshot with update time 09:30:00, millisecond field
    500, action day 20241210, the text of the largest float as last price and
    local time 2024-12-10 09:30:00, whose other numeric fields are there and
    read as floats, assembled for IC2412.CFFEX, gives a tick with last price 0
    and exchange time 2024-12-10 09:30:00.500000: the three digits 500 count
    as 500000 microseconds. The converter hands this tick to its bar
    generator. *)
Theorem scenario_tick (data : snapshot) :
  In (str "CFFEX") exchange_values ->
  dict_get data (str "UpdateTime") = Some (str "09:30:00") ->
  dict_get data (str "UpdateMillisec") = Some (str "500") ->
  dict_get data (str "ActionDay") = Some (str "20241210") ->
  dict_get data (str "LastPrice") = Some (str MAX_TEXT) ->
  dict_get data (str "localtime") = Some (str "2024-12-10 09:30:00") ->
  Forall (fun key => exists x, float_item data key = Ok x) required_numeric ->
  (has_depth data = true -> exists d, read_depth data = Ok d) ->
  exists tick,
    assemble (str "IC2412.CFFEX") data = Ok (Some tick)
    /\ last_price tick = PyInt 0
    /\ tick_datetime tick
       = {| year := 2024; month := 12; day := 10;
            hour := 9; minute := 30; second := 0; microsecond := 500000 |}
    /\ symbol tick = str "IC2412" /\ exchange tick = str "CFFEX"
    /\ forall bg,
         transform_tick_data._generate_tick
           {| transform_tick_data.vt_symbol := str "IC2412.CFFEX";
              transform_tick_data.bg := bg |} data
         = Ok {| transform_tick_data.vt_symbol := str "IC2412.CFFEX";
                 transform_tick_data.bg := bg ++ [tick] |}.
Proof.
  intros Hex Hut Hms Had Hlp Hlt Hreq Hdepth.
  unfold required_numeric, raw_fields, adjusted_prices in Hreq.
  cbn [List.map fst app] in Hreq.
  repeat match goal with
    | Hf : Forall _ (_ :: _) |- _ =>
        let x := fresh "x" in let Hx := fresh "Hx" in
        apply List.Forall_cons_iff in Hf as [[x Hx] Hf]
    end.
  clear Hreq.
  assert (Hmax : float_item data "LastPrice" = Ok float_max).
  { unfold float_item, dict_item. rewrite Hlp. apply float_of_max_text. }
  assert (Hc : exists top,
            construct (str "IC2412.CFFEX") data = Ok (Some top)
            /\ last_price top = PyInt 0
            /\ tick_datetime top
               = {| year := 2024; month := 12; day := 10;
                    hour := 9; minute := 30; second := 0;
                    microsecond := 500000 |}
            /\ symbol top = str "IC2412" /\ exchange top = str "CFFEX").
  { unfold construct.
    rewrite (truthy_some data _ _ _ Hut). cbn [negb].
    rewrite (extract_vt_symbol_cffex Hex). cbn [mbind Res_bind].
    rewrite (date_str_action_day data (str "CFFEX") _ _ ltac:(discriminate) Had).
    cbn [mbind Res_bind].
    rewrite (dict_item_some _ _ _ Hut), (dict_item_some _ _ _ Hms).
    cbn [mbind Res_bind].
    match goal with
    | |- context [strptime_exchange ?s] =>
        replace (strptime_exchange s)
          with (strptime_exchange
                  (str "20241210" ++ str " " ++ str "09:30:00" ++ str "."
                   ++ str "500")) by reflexivity
    end.
    rewrite strptime_exchange_scenario. cbn [mbind Res_bind].
    unfold raw, adjusted.
    repeat match goal with
      | Hx : float_item data _ = Ok _ |- _ => rewrite Hx; clear Hx
      end.
    cbn [mbind Res_bind fmap Res_fmap].
    rewrite (dict_item_some _ _ _ Hlt). cbn [mbind Res_bind].
    rewrite strptime_local_scenario. cbn [mbind Res_bind mret Res_ret].
    eexists. split; [reflexivity|]. cbn.
    repeat split; vm_compute; reflexivity. }
  destruct Hc as (top & Hc & Hlast & Hdt & Hsym & Hexch).
  assert (Ha : exists tick,
            assemble (str "IC2412.CFFEX") data = Ok (Some tick)
            /\ last_price tick = last_price top
            /\ tick_datetime tick = tick_datetime top
            /\ symbol tick = symbol top /\ exchange tick = exchange top).
  { unfold assemble. rewrite Hc. cbn [mbind Res_bind].
    destruct (has_depth data).
    - destruct (Hdepth eq_refl) as [d Hd]. rewrite Hd. cbn.
      eexists. split; [reflexivity|]. auto.
    - eexists. split; [reflexivity|]. auto. }
  destruct Ha as (tick & Ha & E1 & E2 & E3 & E4).
  exists tick. rewrite E1, E2, E3, E4. repeat split; try assumption.
  intros bg. unfold transform_tick_data._generate_tick.
  cbn [transform_tick_data.vt_symbol transform_tick_data.bg].
  now rewrite Ha.
Qed.
End Scenario.

Lemma scenario_tick_witness :
  exists tick,
    @assemble ascii_host (str "IC2412.CFFEX") scenario = Ok (Some tick)
    /\ last_price tick = PyInt 0
    /\ tick_datetime tick
       = {| year := 2024; month := 12; day := 10;
            hour := 9; minute := 30; second := 0; microsecond := 500000 |}.
Proof.
  destruct (@scenario_tick ascii_host scenario) as (tick & Ha & Hl & Hd & _).
  - vm_compute. tauto.
  - reflexivity.
  - reflexivity.
  - reflexivity.
  - reflexivity.
  - reflexivity.
  - unfold required_numeric. cbn [List.map fst app raw_fields adjusted_prices].
    repeat constructor; eexists; vm_compute; reflexivity.
  - discriminate.
  - exists tick. auto.
Defined.

(** ** The journal writer *)

Section Writer.
Context `{Host}.
Import record_tick.

Lemma plain_char_repr (c : N) : plain_char c = true -> repr_char QUOTE c = [c].
Proof.
  unfold plain_char, repr_char, isprintable, QUOTE, DQUOTE, BACKSLASH.
  intros Hp. repeat (apply andb_true_iff in Hp as [Hp ?]).
  repeat match goal with
    | Hn : negb _ = true |- _ => apply negb_true_iff in Hn; rewrite Hn
    end.
  cbn [orb].
  destruct (N.ltb_spec c 128) as [Hlt|Hge].
  - match goal with Hr : _ && _ = true |- _ =>
      apply andb_true_iff in Hr as [Hlo Hhi] end.
    apply N.leb_le in Hlo. apply N.ltb_lt in Hhi.
    repeat match goal with
      | |- context [?a =? ?b] => destruct (N.eqb_spec a b); [lia|]
      | |- context [?a <? ?b] => destruct (N.ltb_spec a b); try lia
      end; reflexivity.
  - match goal with Hr : uni_printable c = true |- _ => rewrite Hr end.
    repeat match goal with
      | |- context [?a =? ?b] => destruct (N.eqb_spec a b); [lia|]
      | |- context [?a <? ?b] => destruct (N.ltb_spec a b); try lia
      end; reflexivity.
Qed.

Lemma plain_no_quote (s : pystr) : plain s = true -> contains QUOTE s = false.
Proof.
  unfold plain, contains. induction s as [|c s IH]; [reflexivity|].
  cbn [forallb existsb]. intros Hp. apply andb_true_iff in Hp as [Hc Hs].
  rewrite (IH Hs), orb_false_r.
  unfold plain_char in Hc. repeat (apply andb_true_iff in Hc as [Hc ?]).
  apply negb_true_iff in Hc. now rewrite N.eqb_sym.
Qed.

Lemma repr_plain (s : pystr) : plain s = true -> repr s = [QUOTE] ++ s ++ [QUOTE].
Proof.
  intros Hp. unfold repr, repr_quote. rewrite (plain_no_quote s Hp).
  cbn [andb]. do 2 f_equal.
  unfold plain in Hp. induction s as [|c s IH]; [reflexivity|].
  cbn [forallb] in Hp. apply andb_true_iff in Hp as [Hc Hs].
  cbn [List.map List.concat]. now rewrite (plain_char_repr c Hc), (IH Hs).
Qed.

Lemma repr_item_plain (kv : pystr * pystr) :
  plain (fst kv) = true -> plain (snd kv) = true ->
  repr_item kv = quoted_item kv.
Proof.
  intros Hk Hv. unfold repr_item, quoted_item.
  rewrite (repr_plain _ Hk), (repr_plain _ Hv).
  now rewrite <- !app_assoc.
Qed.

Lemma repr_dict_plain (d : snapshot) :
  plain_snapshot d -> repr_dict d = quoted_line (str ", ") d.
Proof.
  intros Hd. unfold repr_dict, quoted_line. do 3 f_equal.
  induction Hd as [|kv d [Hk Hv] _ IH]; [reflexivity|].
  cbn [List.map]. now rewrite (repr_item_plain kv Hk Hv), IH.
Qed.

(** C9 (as amended): an append writes to the file named
    [{InstrumentID}.{ExchangeID}.txt], which it creates when it is not there,
    a newline followed by the display form of the dictionary, and leaves the
    other files and the rest of the recorder as they are; the newline comes
    before the first record of a file too. The display form is a pair of
    braces around the pairs [repr(key): repr(value)] joined by an ASCII comma
    and a space; a key or value without quote, backslash or unprintable
    character is shown between single quotes. *)
Theorem append_writes_display_form
    (self : TickRecorder) (o_tick : snapshot) (instrument exchange : pystr) :
  dict_get o_tick (str "InstrumentID") = Some instrument ->
  dict_get o_tick (str "ExchangeID") = Some exchange ->
  exists self',
    append_tick_to_file self o_tick = Ok self'
    /\ contracts self' = contracts self
    /\ subscribed self' = subscribed self
    /\ tick_data self' !! (instrument ++ str "." ++ exchange ++ str ".txt")
       = Some (default [] (tick_data self
                             !! (instrument ++ str "." ++ exchange ++ str ".txt"))
               ++ [10] ++ repr_dict o_tick)
    /\ (forall other,
          other <> instrument ++ str "." ++ exchange ++ str ".txt" ->
          tick_data self' !! other = tick_data self !! other)
    /\ repr_dict o_tick
       = str "{" ++ join (str ", ") (List.map repr_item o_tick) ++ str "}"
    /\ (plain_snapshot o_tick ->
        repr_dict o_tick = quoted_line (str ", ") o_tick).
Proof.
  intros Hi He. unfold append_tick_to_file, file_name.
  rewrite (dict_item_some _ _ _ Hi), (dict_item_some _ _ _ He).
  cbn [mbind Res_bind mret Res_ret].
  eexists. split; [reflexivity|]. cbn [contracts subscribed tick_data].
  unfold append_text, journal_entry.
  repeat split; try reflexivity.
  - apply lookup_insert_eq.
  - intros other Hother. now apply lookup_insert_ne.
  - apply repr_dict_plain.
Qed.
End Writer.

Lemma append_writes_display_form_witness :
  exists self',
    @record_tick.append_tick_to_file ascii_host (record_tick.init ∅) two_fields
    = Ok self'
    /\ record_tick.tick_data self' !! str "IC2412.CFFEX.txt"
       = Some ([10] ++ str "{'InstrumentID': 'IC2412', 'ExchangeID': 'CFFEX'}").
Proof.
  destruct (@append_writes_display_form ascii_host (record_tick.init ∅) two_fields
              (str "IC2412") (str "CFFEX") eq_refl eq_refl)
    as (self' & Ha & _ & _ & Hfile & _ & _ & Hplain).
  exists self'. split; [exact Ha|].
  rewrite Hplain in Hfile.
  - exact Hfile.
  - repeat constructor.
Defined.

(** C9, the claim as stated fails: the line appended for a snapshot of two
    fields has an ASCII comma between the pairs, so it is not the legacy line,
    which has a full-width comma there; and a value with an apostrophe is
    written between double quotes. *)
Lemma append_does_not_write_legacy_line :
  (exists self',
     @record_tick.append_tick_to_file ascii_host (record_tick.init ∅) two_fields
     = Ok self'
     /\ record_tick.tick_data self' !! str "IC2412.CFFEX.txt"
        = Some ([10] ++ str "{'InstrumentID': 'IC2412', 'ExchangeID': 'CFFEX'}")
     /\ record_tick.tick_data self' !! str "IC2412.CFFEX.txt"
        <> Some ([10] ++ legacy_line two_fields))
  /\ @record_tick.journal_entry ascii_host [item "InstrumentID" "it's"]
     = [10] ++ str "{'InstrumentID': " ++ [34] ++ str "it's" ++ [34] ++ str "}".
Proof.
  split; [|vm_compute; reflexivity].
  eexists. split; [reflexivity|]. split.
  - vm_compute. reflexivity.
  - vm_compute. discriminate.
Qed.

(** ** The recorder's handlers *)

Section Recorder.
Context `{Host}.
Import record_tick recorder_events.

Lemma handle_original_tick_unknown
    (self : TickRecorder) (now : datetime) (o_tick : snapshot) :
  (forall s, dict_get o_tick (str "InstrumentID") = Some s ->
             contracts self !! s = None) ->
  handle_original_tick self now o_tick = Ok (self, o_tick).
Proof.
  intros Hunknown. unfold handle_original_tick.
  destruct (dict_get o_tick (str "InstrumentID")) as [s|]; cbn; [|reflexivity].
  now rewrite (Hunknown s eq_refl).
Qed.

Lemma handle_original_tick_contracts
    (self self' : TickRecorder) now (o_tick o_tick' : snapshot) :
  handle_original_tick self now o_tick = Ok (self', o_tick') ->
  contracts self' = contracts self.
Proof.
  unfold handle_original_tick.
  destruct (dict_get o_tick (str "InstrumentID") ≫= _) as [c|];
    [|now intros [= <- _]].
  intros Hh. apply bind_Ok in Hh as (r & Ha & [= <- _]).
  unfold append_tick_to_file in Ha.
  apply bind_Ok in Ha as (name & _ & [= <-]). reflexivity.
Qed.

Lemma handle_keeps_cache (events : list event) (self self' : TickRecorder) ev :
  cache_from events self -> handle self ev = Ok self' ->
  cache_from (events ++ [ev]) self'.
Proof.
  intros Hinv Hh s c Hs. destruct ev as [contract | now o_tick]; cbn in Hh.
  - injection Hh as <-. unfold handle_contract_event in Hs.
    destruct (contract_product contract) eqn:Hprod; cbn in Hs.
    + destruct (decide (contract_symbol contract = s)) as [<-|Hne].
      * rewrite lookup_insert_eq in Hs. injection Hs as <-.
        repeat split; [assumption|]. apply in_app_iff. right. now left.
      * rewrite lookup_insert_ne in Hs by assumption.
        destruct (Hinv s c Hs) as (? & ? & ?).
        repeat split; try assumption. apply in_app_iff. now left.
    + destruct (Hinv s c Hs) as (? & ? & ?).
      repeat split; try assumption. apply in_app_iff. now left.
  - apply fmap_Ok in Hh as ([r o'] & Hh & ->). cbn in Hs.
    rewrite (handle_original_tick_contracts _ _ _ _ _ Hh) in Hs.
    destruct (Hinv s c Hs) as (? & ? & ?).
    repeat split; try assumption. apply in_app_iff. now left.
Qed.

Lemma for_each_keeps_cache (events prev : list event) (self0 self : TickRecorder) :
  cache_from prev self0 -> for_each handle self0 events = Ok self ->
  cache_from (prev ++ events) self.
Proof.
  revert prev self0; induction events as [|ev events IH];
    intros prev self0 Hinv Hrun; cbn in Hrun.
  - injection Hrun as <-. now rewrite app_nil_r.
  - apply bind_Ok in Hrun as (self1 & Hh & Hrun).
    replace (prev ++ ev :: events) with ((prev ++ [ev]) ++ events)
      by (now rewrite <- app_assoc).
    eapply IH; [|exact Hrun]. eapply handle_keeps_cache; eauto.
Qed.

Lemma run_cache files (events : list event) (self : TickRecorder) :
  run files events = Ok self -> cache_from events self.
Proof.
  intros Hrun. apply (for_each_keeps_cache events [] (init files)); [|exact Hrun].
  intros s c Hs. cbn in Hs. now rewrite lookup_empty in Hs.
Qed.

(** C10: a tick whose [InstrumentID] is missing or is not a key of the
    contract cache leaves the recorder, its files and the tick's dictionary as
    they are. After any sequence of events, what the cache holds came with a
    contract event and is a futures contract; so a tick handler that changes
    the recorder was given the instrument of an earlier futures contract
    event. *)
Theorem uncached_instrument_is_skipped :
  (forall (self : TickRecorder) now (o_tick : snapshot),
     (forall s, dict_get o_tick (str "InstrumentID") = Some s ->
                contracts self !! s = None) ->
     handle_original_tick self now o_tick = Ok (self, o_tick))
  /\ (forall files events (self : TickRecorder) s c,
        run files events = Ok self ->
        contracts self !! s = Some c ->
        contract_product c = FUTURES /\ contract_symbol c = s
        /\ In (CONTRACT c) events)
  /\ (forall files events (self self' : TickRecorder) now
             (o_tick o_tick' : snapshot),
        run files events = Ok self ->
        handle_original_tick self now o_tick = Ok (self', o_tick') ->
        self' <> self ->
        exists contract,
          In (CONTRACT contract) events
          /\ contract_product contract = FUTURES
          /\ dict_get o_tick (str "InstrumentID")
             = Some (contract_symbol contract)).
Proof.
  split; [exact handle_original_tick_unknown|]. split.
  - intros files events self s c Hrun. now apply (run_cache files).
  - intros files events self self' now o_tick o_tick' Hrun Hh Hchanged.
    destruct (dict_get o_tick (str "InstrumentID")) as [s|] eqn:Hs.
    + destruct (contracts self !! s) as [c|] eqn:Hc.
      * destruct (run_cache files events self Hrun s c Hc) as (Hp & <- & Hin).
        exists c. auto.
      * rewrite handle_original_tick_unknown in Hh by congruence.
        injection Hh as <- _. contradiction.
    + rewrite handle_original_tick_unknown in Hh by congruence.
      injection Hh as <- _. contradiction.
Qed.
End Recorder.

Lemma uncached_instrument_is_skipped_witness :
  (let self := record_tick.handle_contract_event
                 (record_tick.handle_contract_event (record_tick.init ∅) IC2412)
                 IO2412 in
   @record_tick.handle_original_tick ascii_host self noon
     [item "InstrumentID" "IO2412-C-4000"; item "LastPrice" "35.2"]
   = Ok (self, [item "InstrumentID" "IO2412-C-4000"; item "LastPrice" "35.2"]))
  /\ exists contract,
       In (recorder_events.CONTRACT contract)
          [recorder_events.CONTRACT IO2412; recorder_events.CONTRACT IC2412]
       /\ contract_product contract = FUTURES
       /\ dict_get [item "InstrumentID" "IC2412"] (str "InstrumentID")
          = Some (contract_symbol contract).
Proof.
  destruct (@uncached_instrument_is_skipped ascii_host) as (Hskip & _ & Honly).
  split.
  - apply Hskip. intros s [= <-]. vm_compute. reflexivity.
  - eapply (Honly ∅
              [recorder_events.CONTRACT IO2412; recorder_events.CONTRACT IC2412]
              _ _ noon [item "InstrumentID" "IC2412"]).
    + reflexivity.
    + reflexivity.
    + intros Heq.
      apply (f_equal (fun r => record_tick.tick_data r !! str "IC2412.CFFEX.txt"))
        in Heq.
      vm_compute in Heq. discriminate.
Defined.

Lemma assembled_prices_are_sanitized_witness :
  exists tick,
    @assemble ascii_host (str "IC2412.CFFEX") scenario = Ok (Some tick)
    /\ Forall (fun kf => @sanitized ascii_host scenario (fst kf) (snd kf tick))
         adjusted_prices
    /\ is_float_max (last_price tick) = false.
Proof.
  destruct scenario_assembles as (tick & Ha & _).
  destruct (@assembled_prices_are_sanitized ascii_host _ _ _ Ha)
    as (Hp & _ & _ & _ & Hmax).
  exists tick. split; [exact Ha|]. split; [exact Hp|].
  apply List.Forall_inv in Hp. apply (Hmax _ _ Hp).
Defined.

(** C2, the claim as stated fails: the upper limit price of the scenario
    snapshot, which is what the decoder gives for its line without quotes, is
    the largest float, and so is the limit-up price of the tick assembled
    from it. *)
Lemma limit_up_keeps_float_max :
  tick_dict (bare_line scenario) = scenario
  /\ exists tick,
       @assemble ascii_host (str "IC2412.CFFEX") scenario = Ok (Some tick)
       /\ @float_item ascii_host scenario "UpperLimitPrice" = Ok float_max
       /\ limit_up tick = PyFloat float_max
       /\ is_float_max (limit_up tick) = true.
Proof.
  split; [vm_compute; reflexivity|].
  eexists. repeat split; vm_compute; reflexivity.
Qed.

Lemma depth_follows_level_2_volumes_witness :
  (exists top d,
     @construct ascii_host (str "IC2412.CFFEX") all_levels = Ok (Some top)
     /\ @assemble ascii_host (str "IC2412.CFFEX") all_levels
        = Ok (Some (with_depth top d))
     /\ bid_price_5 d = PyInt 0)
  /\ raised (@assemble ascii_host (str "IC2412.CFFEX") with_bid_volume_2)
  /\ exists top,
       @assemble ascii_host (str "IC2412.CFFEX") with_bid_price_2
       = Ok (Some top)
       /\ depth top = None.
Proof.
  split; [|split].
  - assert (Hc : exists top, @construct ascii_host (str "IC2412.CFFEX") all_levels
                             = Ok (Some top))
      by (eexists; vm_compute; reflexivity).
    destruct Hc as [top Hc].
    assert (Hd : exists d, @read_depth ascii_host all_levels = Ok d
                           /\ bid_price_5 d = PyInt 0)
      by (eexists; split; vm_compute; reflexivity).
    destruct Hd as (d & Hd & H5).
    destruct (@depth_follows_level_2_volumes ascii_host _ _ _ Hc)
      as (_ & Hon & _).
    destruct (Hon eq_refl) as (Hall & _).
    destruct (Hall d Hd) as (Ha & _).
    exists top, d. auto.
  - assert (Hc : exists top,
              @construct ascii_host (str "IC2412.CFFEX") with_bid_volume_2
              = Ok (Some top))
      by (eexists; vm_compute; reflexivity).
    destruct Hc as [top Hc].
    destruct (@depth_follows_level_2_volumes ascii_host _ _ _ Hc)
      as (_ & Hon & _).
    destruct (Hon eq_refl) as (_ & Hmiss & _).
    apply (Hmiss "BidPrice2"%string); [cbn; tauto | reflexivity].
  - assert (Hc : exists top,
              @construct ascii_host (str "IC2412.CFFEX") with_bid_price_2
              = Ok (Some top))
      by (eexists; vm_compute; reflexivity).
    destruct Hc as [top Hc].
    destruct (@depth_follows_level_2_volumes ascii_host _ _ _ Hc)
      as (_ & _ & Hoff).
    exists top. apply Hoff. reflexivity.
Defined.

(** C3, the claim as stated fails, on two mappings that the decoder gives for
    lines without quotes. A mapping with [BidPrice2] and no other field of
    levels 2 to 5 gives a tick without these levels and no error, though a
    level-2 field is present; a mapping with [BidVolume2] and no other field
    of these levels raises [KeyError], though partial depth was to be read as
    no depth. *)
Lemma partial_depth_is_neither_filled_nor_ignored :
  tick_dict (bare_line with_bid_price_2) = with_bid_price_2
  /\ tick_dict (bare_line with_bid_volume_2) = with_bid_volume_2
  /\ dict_get with_bid_price_2 (str "BidPrice2") = Some (str "3899.8")
  /\ (exists tick,
        @assemble ascii_host (str "IC2412.CFFEX") with_bid_price_2
        = Ok (Some tick)
        /\ depth tick = None)
  /\ dict_get with_bid_volume_2 (str "BidVolume2") = Some (str "3")
  /\ @assemble ascii_host (str "IC2412.CFFEX") with_bid_volume_2
     = Raise (KeyError (str "BidPrice2")).
Proof.
  split; [vm_compute; reflexivity|]. split; [vm_compute; reflexivity|].
  split; [reflexivity|]. split; [|split; [reflexivity|]].
  - eexists. split; vm_compute; reflexivity.
  - vm_compute. reflexivity.
Qed.

(** ** The round trip *)

(** C1, at the failing input: the line the writer appends for the scenario
    snapshot decodes to the empty dictionary, not to the snapshot, and a
    replay of the journal gives the bar generator no tick. A snapshot of one
    pair decodes to a pair that keeps the quotes of the line; so do the pairs
    of a line with full-width commas. *)
Theorem journal_line_does_not_decode_back `{Host} :
  tick_dict (repr_dict scenario) = []
  /\ ~ same_mapping (tick_dict (repr_dict scenario)) scenario
  /\ (forall self : transform_tick_data.TickToBarConverter,
        transform_tick_data._process_tick_string self
          (record_tick.journal_entry scenario) = Ok self)
  /\ tick_dict (repr_dict [item "InstrumentID" "IC2412"])
     = [item "'InstrumentID'" "'IC2412'"]
  /\ tick_dict (legacy_line two_fields)
     = [item "'InstrumentID'" "'IC2412'"; item "'ExchangeID'" "'CFFEX'"].
Proof.
  assert (Hd : tick_dict (repr_dict scenario) = []) by (vm_compute; reflexivity).
  split; [exact Hd|]. split; [|split; [|split]].
  - rewrite Hd. intros Hsame.
    specialize (Hsame (str "UpdateTime")). discriminate.
  - intros self. vm_compute. reflexivity.
  - vm_compute. reflexivity.
  - vm_compute. reflexivity.
Qed.

(** * Further properties *)

(** ** What the decoder gives *)

Lemma free_app_l (sep a b : pystr) : free sep (a ++ b) -> free sep a.
Proof. intros Hf x y ->. apply (Hf x (y ++ b)). now rewrite <- !app_assoc. Qed.

Lemma free_app_r (sep a b : pystr) : free sep (a ++ b) -> free sep b.
Proof. intros Hf x y ->. apply (Hf (a ++ x) y). now rewrite <- !app_assoc. Qed.

Lemma free_inside (sep l p r : pystr) : free sep (l ++ p ++ r) -> free sep p.
Proof. intros Hf. eapply free_app_l, free_app_r, Hf. Qed.

(** A piece of [split] is a part of the text in which the separator does not
    occur. *)
Lemma split_pieces (x y : N) (s p : pystr) :
  x <> y -> In p (split [x; y] s) ->
  free [x; y] p /\ exists l r, s = l ++ p ++ r.
Proof.
  intros Hxy. unfold split.
  assert (Hn : forall n s, (List.length s <= n)%nat ->
            In p (split_from [x; y] 0 [] s) ->
            free [x; y] p /\ exists l r, s = l ++ p ++ r).
  { clear s. induction n as [|n IH]; intros s Hlen Hin.
    - destruct s; [|simpl in Hlen; lia]. destruct Hin as [<-|[]].
      split; [apply free_nil; discriminate | now exists [], []].
    - destruct (first_occurrence [x; y] s ltac:(discriminate))
        as [Hf | (a & b & -> & Hf)].
      + rewrite split_from_free in Hin by assumption.
        destruct Hin as [<-|[]]. split; [exact Hf|].
        exists [], []. now rewrite app_nil_r.
      + rewrite split_from_first in Hin by assumption.
        destruct Hin as [<-|Hin].
        * split; [exact Hf|]. now exists [], ([x; y] ++ b).
        * destruct (IH b) as (Hp & l & r & ->); [|exact Hin|].
          { rewrite !length_app in Hlen. simpl in Hlen. lia. }
          split; [exact Hp|]. exists (a ++ [x; y] ++ l), r.
          now rewrite <- !app_assoc. }
  apply (Hn (List.length s)). lia.
Qed.

Lemma dict_set_keys {V} (d : dict V) (k : pystr) (v : V) :
  (In k (List.map fst d) /\ List.map fst (dict_set d k v) = List.map fst d)
  \/ (~ In k (List.map fst d)
      /\ List.map fst (dict_set d k v) = List.map fst d ++ [k]).
Proof.
  induction d as [|[k0 v0] d IH]; [right; split; [intros [] | reflexivity]|].
  cbn [dict_set]. destruct (pystr_eqb k0 k) eqn:E.
  - apply pystr_eqb_eq in E as ->. left. split; [now left | reflexivity].
  - assert (Hne : k0 <> k) by (intros ->; now rewrite pystr_eqb_refl in E).
    cbn [List.map fst]. destruct IH as [[Hin ->] | [Hout ->]].
    + left. split; [now right | reflexivity].
    + right. split; [intros [?|?]; congruence | reflexivity].
Qed.

Lemma dict_set_well_formed {V} (d : dict V) (k : pystr) (v : V) :
  well_formed d -> well_formed (dict_set d k v).
Proof.
  unfold well_formed. intros Hd.
  destruct (dict_set_keys d k v) as [[_ ->] | [Hout ->]]; [exact Hd|].
  apply NoDup_app. split; [exact Hd|]. split.
  - intros x Hx Hxk. apply list_elem_of_In in Hx.
    apply list_elem_of_singleton in Hxk as ->. contradiction.
  - apply NoDup_singleton.
Qed.

Lemma dict_set_Forall {V} (P : pystr * V -> Prop) (d : dict V) k v :
  Forall P d -> P (k, v) -> Forall P (dict_set d k v).
Proof.
  intros Hd Hkv. induction Hd as [|[k0 v0] d H0 Hd IH]; cbn.
  - now constructor.
  - destruct (pystr_eqb k0 k) eqn:E.
    + apply pystr_eqb_eq in E as ->. now constructor.
    + now constructor.
Qed.

Lemma add_field_well_formed (d : snapshot) (seg : pystr) :
  well_formed d -> well_formed (add_field d seg).
Proof.
  intros Hd. destruct (add_field_inv d seg) as [-> | (k & v & _ & ->)];
    [exact Hd | now apply dict_set_well_formed].
Qed.

Ltac by_assoc H :=
  rewrite <- ?app_assoc in H; rewrite <- ?app_assoc; exact H.

Lemma add_field_text (line : pystr) (d : snapshot) (seg : pystr) :
  In seg (split FIELD_SEP (clean_str line)) ->
  Forall (fun kv => field_text (fst kv) /\ field_text (snd kv)) d ->
  Forall (fun kv => field_text (fst kv) /\ field_text (snd kv)) (add_field d seg).
Proof.
  intros Hseg Hd.
  destruct (add_field_inv d seg) as [-> | (k & v & Hs & ->)]; [exact Hd|].
  apply dict_set_Forall; [exact Hd|]. cbn [fst snd].
  apply (split_pieces fullwidth_comma 32) in Hseg as (Hfree & l & r & Hline);
    [|discriminate].
  apply (split_pair_iff 58 32) in Hs as (-> & Hk & Hv); [|discriminate].
  assert (Hclean : (~ In 123 (clean_str line) /\ ~ In 125 (clean_str line))
                   /\ free (str "''") (clean_str line)).
  { unfold clean_str. repeat split.
    - intros Hin. apply In_replace in Hin; [|discriminate].
      apply In_replace in Hin; [|discriminate].
      now apply (replace_char_absent 123) in Hin.
    - intros Hin. apply In_replace in Hin; [|discriminate].
      now apply (replace_char_absent 125) in Hin.
    - apply (replace_pair_free 39). }
  destruct Hclean as [[H1 H2] Hq]. rewrite Hline in H1, H2, Hq.
  rewrite !in_app_iff in H1, H2.
  split; unfold field_text; repeat split; try tauto.
  - apply (free_inside _ l k ([58; 32] ++ v ++ r)). by_assoc Hq.
  - eapply free_app_l, Hfree.
  - apply (free_inside _ (l ++ k ++ [58; 32]) v r). by_assoc Hq.
  - eapply free_app_r, free_app_r, Hfree.
Qed.

Lemma tick_dict_invariant (line : pystr) :
  well_formed (tick_dict line)
  /\ Forall (fun kv => field_text (fst kv) /\ field_text (snd kv))
       (tick_dict line).
Proof.
  unfold tick_dict.
  assert (Hgen : forall segs d,
            (forall seg, In seg segs ->
                         In seg (split FIELD_SEP (clean_str line))) ->
            well_formed d ->
            Forall (fun kv => field_text (fst kv) /\ field_text (snd kv)) d ->
            well_formed (fold_left add_field segs d)
            /\ Forall (fun kv => field_text (fst kv) /\ field_text (snd kv))
                 (fold_left add_field segs d)).
  { induction segs as [|seg segs IH]; intros d Hsub Hwf Hall; [auto|].
    cbn [fold_left]. apply IH.
    - intros s Hs. apply Hsub. now right.
    - now apply add_field_well_formed.
    - apply (add_field_text line); [apply Hsub; now left | exact Hall]. }
  apply Hgen; [auto | apply NoDup_nil_2 | constructor].
Qed.

(** X2: whatever the line, the mapping the decoder gives has no key twice,
    and its keys and values hold no brace, no pair of adjacent single quotes,
    no ': ' and no full-width comma followed by a space. *)
Theorem decoded_mapping_is_clean (line : pystr) :
  well_formed (tick_dict line)
  /\ forall k v,
       dict_get (tick_dict line) k = Some v -> field_text k /\ field_text v.
Proof.
  destruct (tick_dict_invariant line) as [Hwf Hall]. split; [exact Hwf|].
  intros k v Hget. rewrite List.Forall_forall in Hall.
  apply (Hall (k, v)). clear Hall Hwf.
  induction (tick_dict line) as [|[k0 v0] d IH]; [discriminate|].
  cbn in Hget. destruct (pystr_eqb k0 k) eqn:E.
  - apply pystr_eqb_eq in E as ->. injection Hget as ->. now left.
  - right. auto.
Qed.

(** X3: a decoded mapping written back as a line without quotes decodes to
    itself: decoding is idempotent through that form of line. *)
Theorem decoder_is_idempotent_on_bare_lines (line : pystr) :
  tick_dict (bare_line (tick_dict line)) = tick_dict line.
Proof.
  destruct (tick_dict_invariant line) as [Hwf Hall].
  now apply tick_dict_bare_line.
Qed.

(** X4: when a key stands in several segments of a line, the value of the
    last of them is the one the decoder keeps. *)
Theorem decoder_keeps_last_value (line : pystr) (before after : list pystr)
    (k v : pystr) :
  split FIELD_SEP (clean_str line) = before ++ (k ++ str ": " ++ v) :: after ->
  free (str ": ") k -> free (str ": ") v ->
  (forall seg v', In seg after -> seg <> k ++ str ": " ++ v') ->
  dict_get (tick_dict line) k = Some v.
Proof.
  intros Hsegs Hk Hv Hafter. unfold tick_dict.
  rewrite Hsegs, fold_left_app. cbn [fold_left].
  rewrite fold_add_field_other.
  - rewrite add_field_pair by assumption.
    rewrite dict_get_set. now rewrite pystr_eqb_refl.
  - intros seg v' Hin Hs.
    apply (split_pair_iff 58 32) in Hs as (-> & _ & _); [|discriminate].
    now apply (Hafter _ v' Hin).
Qed.

Lemma decoder_keeps_last_value_witness :
  dict_get (tick_dict (str "{Volume: 1" ++ FIELD_SEP ++ str "Volume: 2"
                       ++ FIELD_SEP ++ str "Turnover: 9}"))
    (str "Volume") = Some (str "2").
Proof.
  apply (decoder_keeps_last_value _ [str "Volume: 1"] [str "Turnover: 9"]
           (str "Volume") (str "2")).
  - vm_compute. reflexivity.
  - free_by_scan.
  - free_by_scan.
  - intros seg v' [<- | []] Heq. vm_compute in Heq. discriminate.
Defined.

(** ** Replaying a journal *)

Lemma split_char_app (c : N) (a b : pystr) :
  split [c] (a ++ c :: b) = split [c] a ++ split [c] b.
Proof.
  unfold split.
  enough (Hgen : forall cur,
             split_from [c] 0 cur (a ++ c :: b)
             = split_from [c] 0 cur a ++ split_from [c] 0 [] b) by apply Hgen.
  induction a as [|x a IH]; intros cur; cbn.
  - now rewrite N.eqb_refl.
  - destruct (c =? x); cbn; [f_equal|]; apply IH.
Qed.

Lemma for_each_app {S A : Type} (step : S -> A -> Res S) (st : S)
    (l1 l2 : list A) :
  for_each step st (l1 ++ l2)
  = st' ← for_each step st l1; for_each step st' l2.
Proof.
  revert st; induction l1 as [|x l1 IH]; intros st; cbn; [reflexivity|].
  destruct (step st x); cbn; [apply IH | reflexivity].
Qed.

Section Replay.
Context `{Host}.
Import transform_tick_data.

Lemma replay_lines (lines : list pystr) (self : TickToBarConverter) :
  for_each
    (fun self line =>
       if blank line then mret self else _parse_line_to_tick self line)
    self lines
  = ticks ← ticks_of_lines (vt_symbol self) lines;
    mret {| vt_symbol := vt_symbol self; bg := bg self ++ ticks |}.
Proof.
  revert self; induction lines as [|line lines IH]; intros [vt ticks0].
  - cbn. now rewrite app_nil_r.
  - cbn [for_each ticks_of_lines vt_symbol bg].
    destruct (blank line).
    + cbn. rewrite IH. cbn [vt_symbol bg].
      now destruct (ticks_of_lines vt lines).
    + unfold _parse_line_to_tick, _generate_tick. cbn [vt_symbol bg].
      destruct (assemble vt (tick_dict line)) as [[tick|]|e]; cbn;
        [| |reflexivity].
      * rewrite IH. cbn [vt_symbol bg].
        destruct (ticks_of_lines vt lines); cbn; [|reflexivity].
        now rewrite <- app_assoc.
      * rewrite IH. cbn [vt_symbol bg].
        now destruct (ticks_of_lines vt lines).
Qed.

(** X5: a replay keeps the converter's [vt_symbol] and only adds to what
    the bar generator was given: the ticks of the lines of the text, in
    their order, after the ticks it had; and it raises when a line does. *)
Theorem replay_appends_the_ticks_of_the_lines
    (self : TickToBarConverter) (data_str : pystr) :
  _process_tick_string self data_str
  = ticks ← ticks_of_lines (vt_symbol self) (split [10] data_str);
    mret {| vt_symbol := vt_symbol self; bg := bg self ++ ticks |}.
Proof. apply replay_lines. Qed.

Lemma ticks_of_lines_length (vt : pystr) (lines : list pystr) ticks :
  ticks_of_lines vt lines = Ok ticks ->
  (List.length ticks
   <= List.length (List.filter (fun l => negb (blank l)) lines))%nat.
Proof.
  revert ticks; induction lines as [|line lines IH]; intros ticks Hrun.
  - injection Hrun as <-. cbn. lia.
  - cbn [ticks_of_lines] in Hrun.
    apply bind_Ok in Hrun as (t & Ht & Hrun).
    apply bind_Ok in Hrun as (ts & Hts & Hrun).
    injection Hrun as <-. specialize (IH ts Hts).
    cbn [List.filter]. destruct (blank line); cbn [negb].
    + injection Ht as <-. exact IH.
    + destruct t; cbn [List.length]; lia.
Qed.

(** X6: a replay gives the bar generator at most one tick for each line of
    the text that is not blank. *)
Theorem replay_gives_at_most_one_tick_per_line
    (self self' : TickToBarConverter) (data_str : pystr) :
  _process_tick_string self data_str = Ok self' ->
  (List.length (bg self')
   <= List.length (bg self)
      + List.length (List.filter (fun l => negb (blank l))
                       (split [10%N] data_str)))%nat.
Proof.
  unfold _process_tick_string. rewrite replay_lines. intros Hrun.
  apply bind_Ok in Hrun as (ticks & Hticks & Hrun).
  injection Hrun as <-. cbn [bg]. rewrite length_app.
  apply ticks_of_lines_length in Hticks. lia.
Qed.

Lemma loader_line (loader : load_tick_data.TickFileLoader)
    (conv : TickToBarConverter) (line : pystr) :
  load_tick_data.vt_symbol loader = vt_symbol conv ->
  load_tick_data._parse_line_to_tick loader line
  = (fun _ => tt) <$> _parse_line_to_tick conv line
  /\ forall conv', _parse_line_to_tick conv line = Ok conv' ->
                   vt_symbol conv' = vt_symbol conv.
Proof.
  intros Hvt.
  unfold load_tick_data._parse_line_to_tick, load_tick_data._dict_to_tick,
    _parse_line_to_tick, _generate_tick. rewrite Hvt.
  destruct (assemble (vt_symbol conv) (tick_dict line)) as [[tick|]|e]; cbn;
    split; try reflexivity; intros conv' Hconv; try discriminate;
    now injection Hconv as <-.
Qed.

Lemma loader_lines (lines : list pystr) (loader : load_tick_data.TickFileLoader)
    (conv : TickToBarConverter) :
  load_tick_data.vt_symbol loader = vt_symbol conv ->
  for_each
    (fun _ line =>
       if blank line then mret tt
       else load_tick_data._parse_line_to_tick loader line)
    tt lines
  = (fun _ => tt) <$>
    for_each
      (fun self line =>
         if blank line then mret self else _parse_line_to_tick self line)
      conv lines.
Proof.
  intros Hvt. revert conv Hvt.
  induction lines as [|line lines IH]; intros conv Hvt; [reflexivity|].
  cbn [for_each]. destruct (blank line).
  - cbn. now apply IH.
  - destruct (loader_line loader conv line Hvt) as [-> Hkeep].
    destruct (_parse_line_to_tick conv line) as [conv'|e]; [|reflexivity].
    cbn [fmap Res_fmap mbind Res_bind]. apply IH.
    rewrite Hvt. symmetry. now apply Hkeep.
Qed.

(** X7: on the same text and for the same [vt_symbol], the loader raises
    exactly when the converter does, with the same exception, and returns
    when it returns. *)
Theorem loader_and_converter_agree
    (loader : load_tick_data.TickFileLoader) (conv : TickToBarConverter)
    (data_str : pystr) :
  load_tick_data.vt_symbol loader = vt_symbol conv ->
  load_tick_data.process_total_data loader data_str
  = (fun _ => tt) <$> _process_tick_string conv data_str.
Proof. intros Hvt. now apply loader_lines. Qed.

End Replay.

(** ** The recorder over a sequence of events *)

Section RecorderRuns.
Context `{Host}.
Import record_tick recorder_events.

Lemma only_appended_refl (files : gmap pystr pystr) : only_appended files files.
Proof. intros name text Hf. exists []. now rewrite app_nil_r. Qed.

Lemma only_appended_trans (a b c : gmap pystr pystr) :
  only_appended a b -> only_appended b c -> only_appended a c.
Proof.
  intros Hab Hbc name text Ha.
  destruct (Hab name text Ha) as (m1 & Hb).
  destruct (Hbc name _ Hb) as (m2 & Hc).
  exists (m1 ++ m2). now rewrite app_assoc.
Qed.

Lemma append_text_only_appends (files : gmap pystr pystr) (name text : pystr) :
  only_appended files (append_text files name text).
Proof.
  intros n t Hf. unfold append_text.
  destruct (decide (name = n)) as [->|Hne].
  - rewrite lookup_insert_eq, Hf. now exists text.
  - rewrite lookup_insert_ne by assumption. exists []. now rewrite app_nil_r.
Qed.

Lemma stamped_get (o_tick : snapshot) (e t k : pystr) :
  dict_get (dict_set (dict_set o_tick (str "ExchangeID") e) (str "localtime") t) k
  = if pystr_eqb (str "localtime") k then Some t
    else if pystr_eqb (str "ExchangeID") k then Some e
    else dict_get o_tick k.
Proof. now rewrite !dict_get_set. Qed.

Lemma handle_original_tick_cached
    (self : TickRecorder) (now : datetime) (o_tick : snapshot)
    (s : pystr) (c : ContractData) :
  dict_get o_tick (str "InstrumentID") = Some s ->
  contracts self !! s = Some c ->
  handle_original_tick self now o_tick
  = Ok ({| contracts := contracts self;
           subscribed := subscribed self;
           tick_data :=
             append_text (tick_data self)
               (s ++ str "." ++ contract_exchange c ++ str ".txt")
               (journal_entry
                  (dict_set (dict_set o_tick (str "ExchangeID")
                               (contract_exchange c))
                     (str "localtime") (strftime now))) |},
        dict_set (dict_set o_tick (str "ExchangeID") (contract_exchange c))
          (str "localtime") (strftime now)).
Proof.
  intros Hs Hc. unfold handle_original_tick. rewrite Hs. cbn [mbind option_bind].
  rewrite Hc. unfold append_tick_to_file, file_name, dict_item.
  rewrite !stamped_get.
  change (pystr_eqb (str "localtime") (str "InstrumentID")) with false.
  change (pystr_eqb (str "ExchangeID") (str "InstrumentID")) with false.
  change (pystr_eqb (str "localtime") (str "ExchangeID")) with false.
  rewrite pystr_eqb_refl, Hs. reflexivity.
Qed.

(** X8: when the handler returns for a tick whose instrument is in the
    contract cache, it has set [ExchangeID] to the exchange of the cached
    contract, whatever the feed gave, and [localtime] to the formatted clock
    reading, and left every other key; the stamped dictionary has the two
    keys of the file name, so the name is built without [KeyError]; and the
    entry of the stamped dictionary was appended to the file named after the
    instrument and that exchange, the cache and the subscriptions staying
    as they were. *)
Theorem cached_tick_is_stamped_and_appended
    (self self' : TickRecorder) (now : datetime) (o_tick stamped : snapshot)
    (s : pystr) (c : ContractData) :
  dict_get o_tick (str "InstrumentID") = Some s ->
  contracts self !! s = Some c ->
  handle_original_tick self now o_tick = Ok (self', stamped) ->
  file_name stamped = Ok (s ++ str "." ++ contract_exchange c ++ str ".txt")
  /\ dict_get stamped (str "ExchangeID") = Some (contract_exchange c)
  /\ dict_get stamped (str "localtime") = Some (strftime now)
  /\ (forall k, k <> str "ExchangeID" -> k <> str "localtime" ->
                dict_get stamped k = dict_get o_tick k)
  /\ contracts self' = contracts self
  /\ subscribed self' = subscribed self
  /\ tick_data self'
     = append_text (tick_data self)
         (s ++ str "." ++ contract_exchange c ++ str ".txt")
         ([10] ++ repr_dict stamped).
Proof.
  intros Hs Hc Hh.
  rewrite (handle_original_tick_cached _ _ _ _ _ Hs Hc) in Hh.
  injection Hh as <- <-. cbn [contracts subscribed tick_data].
  unfold file_name, dict_item. rewrite !stamped_get, pystr_eqb_refl.
  change (pystr_eqb (str "localtime") (str "InstrumentID")) with false.
  change (pystr_eqb (str "ExchangeID") (str "InstrumentID")) with false.
  change (pystr_eqb (str "localtime") (str "ExchangeID")) with false.
  rewrite Hs. repeat split.
  intros k Hk1 Hk2. rewrite stamped_get.
  rewrite !pystr_eqb_neq by congruence. reflexivity.
Qed.

Lemma handle_grows (self : TickRecorder) (ev : event) :
  exists self',
    handle self ev = Ok self'
    /\ only_appended (tick_data self) (tick_data self')
    /\ subscribed self'
       = subscribed self ++ List.map request_of (futures_of [ev])
    /\ forall s,
         contracts self' !! s
         = match last_with_symbol s (futures_of [ev]) with
           | Some c => Some c
           | None => contracts self !! s
           end.
Proof.
  destruct ev as [contract | now o_tick]; cbn [handle futures_of].
  - eexists. split; [reflexivity|].
    unfold handle_contract_event.
    destruct (is_futures (contract_product contract)); cbn [negb].
    + cbn [tick_data subscribed contracts List.map].
      split; [apply only_appended_refl|]. split; [reflexivity|].
      intros s. unfold last_with_symbol. cbn [List.filter].
      destruct (pystr_eqb (contract_symbol contract) s) eqn:E.
      * apply pystr_eqb_eq in E as <-. now rewrite lookup_insert_eq.
      * rewrite lookup_insert_ne; [reflexivity|].
        intros Heq. now rewrite Heq, pystr_eqb_refl in E.
    + split; [apply only_appended_refl|]. cbn. now rewrite app_nil_r.
  - cbn [List.map]. rewrite app_nil_r.
    destruct (dict_get o_tick (str "InstrumentID")) as [s|] eqn:Hs.
    + destruct (contracts self !! s) as [c|] eqn:Hc.
      * rewrite (handle_original_tick_cached _ _ _ _ _ Hs Hc).
        eexists. split; [reflexivity|]. cbn [fst tick_data subscribed contracts].
        split; [apply append_text_only_appends|]. now split.
      * rewrite handle_original_tick_unknown
          by (intros s' Hs'; rewrite Hs in Hs'; now injection Hs' as <-).
        eexists. split; [reflexivity|].
        split; [apply only_appended_refl|]. now split.
    + rewrite handle_original_tick_unknown
        by (intros s' Hs'; rewrite Hs in Hs'; discriminate).
      eexists. split; [reflexivity|].
      split; [apply only_appended_refl|]. now split.
Qed.

Lemma futures_of_app (a b : list event) :
  futures_of (a ++ b) = futures_of a ++ futures_of b.
Proof.
  induction a as [|[c|now o] a IH]; cbn; [reflexivity| |exact IH].
  destruct (is_futures (contract_product c)); cbn; now rewrite IH.
Qed.

Lemma last_with_symbol_app (s : pystr) (a b : list ContractData) :
  last_with_symbol s (a ++ b)
  = match last_with_symbol s b with
    | Some c => Some c
    | None => last_with_symbol s a
    end.
Proof.
  unfold last_with_symbol. rewrite List.filter_app.
  generalize (List.filter (fun c => pystr_eqb (contract_symbol c) s) a).
  generalize (List.filter (fun c => pystr_eqb (contract_symbol c) s) b).
  intros l2 l1. destruct l2 as [|x l2]; [now rewrite app_nil_r|].
  rewrite last_app. now destruct (last (x :: l2)) eqn:E.
Qed.

Lemma for_each_handle_grows (events : list event) (self : TickRecorder) :
  exists self',
    for_each handle self events = Ok self'
    /\ only_appended (tick_data self) (tick_data self')
    /\ subscribed self'
       = subscribed self ++ List.map request_of (futures_of events)
    /\ forall s,
         contracts self' !! s
         = match last_with_symbol s (futures_of events) with
           | Some c => Some c
           | None => contracts self !! s
           end.
Proof.
  revert self; induction events as [|ev events IH]; intros self.
  - exists self. split; [reflexivity|]. split; [apply only_appended_refl|].
    cbn. now rewrite app_nil_r.
  - destruct (handle_grows self ev) as (self1 & Hh & Hf1 & Hs1 & Hc1).
    destruct (IH self1) as (self' & Hrun & Hf & Hs & Hc).
    exists self'. cbn [for_each]. rewrite Hh. cbn [mbind Res_bind].
    split; [exact Hrun|]. split; [eapply only_appended_trans; eauto|].
    change (ev :: events) with ([ev] ++ events). rewrite futures_of_app.
    split.
    + now rewrite Hs, Hs1, List.map_app, app_assoc.
    + intros s. rewrite Hc, Hc1, last_with_symbol_app.
      now destruct (last_with_symbol s (futures_of events)).
Qed.

(** X9: a run of the recorder that returns has only appended to the files
    of the directory, whatever the events: every file it found is still
    there, its text a prefix of the new one. *)
Theorem recorder_only_appends
    (files : gmap pystr pystr) (events : list event) (self : TickRecorder) :
  run files events = Ok self -> only_appended files (tick_data self).
Proof.
  intros Hrun.
  destruct (for_each_handle_grows events (init files))
    as (self0 & Hrun0 & Hf & _).
  unfold run in Hrun. rewrite Hrun0 in Hrun. now injection Hrun as <-.
Qed.

(** X10: after a run, the requests handed to the gateway are those of the
    futures contracts of the contract events, one for each event and in
    their order, and the cache gives for a symbol the futures contract of
    the last such event with that symbol. *)
Theorem recorder_follows_futures_contracts
    (files : gmap pystr pystr) (events : list event) :
  exists self,
    run files events = Ok self
    /\ subscribed self = List.map request_of (futures_of events)
    /\ forall s,
         contracts self !! s = last_with_symbol s (futures_of events).
Proof.
  destruct (for_each_handle_grows events (init files))
    as (self & Hrun & _ & Hs & Hc).
  exists self. split; [exact Hrun|]. split; [exact Hs|].
  intros s. rewrite Hc. cbn [init contracts]. rewrite lookup_empty.
  now destruct (last_with_symbol s (futures_of events)).
Qed.

End RecorderRuns.

(** ** What the writer puts in a file *)

Section Entries.
Context `{Host}.
Import record_tick transform_tick_data.

Lemma hex_digit_printable (d : N) : d < 16 -> 48 <= hex_digit d < 127.
Proof. unfold hex_digit. intros Hd. destruct (N.ltb_spec d 10); lia. Qed.

Lemma ascii_isprintable (c : N) : 32 <= c < 127 -> isprintable c = true.
Proof.
  intros [Hlo Hhi]. unfold isprintable.
  destruct (N.ltb_spec c 128); [|lia].
  apply andb_true_iff. split; [now apply N.leb_le | now apply N.ltb_lt].
Qed.

Lemma hex_fixed_printable (w : nat) (n : N) :
  Forall (fun c => isprintable c = true) (hex_fixed w n).
Proof.
  revert n; induction w as [|w IH]; intros n; cbn [hex_fixed]; [constructor|].
  apply Forall_app. split; [apply IH|]. constructor; [|constructor].
  apply ascii_isprintable.
  assert (Hlt : n mod 16 < 16) by (apply N.mod_upper_bound; discriminate).
  destruct (hex_digit_printable _ Hlt). lia.
Qed.

Lemma repr_char_printable (q c : N) :
  isprintable q = true ->
  Forall (fun c => isprintable c = true) (repr_char q c).
Proof.
  intros Hq. unfold repr_char.
  destruct (N.eqb_spec c q) as [->|Hcq]; cbn [orb].
  { repeat constructor. exact Hq. }
  destruct (N.eqb_spec c BACKSLASH) as [->|Hcb]; [repeat constructor|].
  destruct (N.eqb_spec c 9); [repeat constructor|].
  destruct (N.eqb_spec c 10); [repeat constructor|].
  destruct (N.eqb_spec c 13); [repeat constructor|].
  destruct (N.ltb_spec c 32); cbn [orb].
  { apply Forall_app. split; [repeat constructor | apply hex_fixed_printable]. }
  destruct (N.eqb_spec c 127).
  { apply Forall_app. split; [repeat constructor | apply hex_fixed_printable]. }
  destruct (N.ltb_spec c 127).
  { repeat constructor. apply ascii_isprintable. lia. }
  destruct (isprintable c) eqn:Hp; [now repeat constructor|].
  destruct (c <=? 255); [|destruct (c <=? 65535)];
    (apply Forall_app; split; [repeat constructor | apply hex_fixed_printable]).
Qed.

Lemma repr_printable (s : pystr) :
  Forall (fun c => isprintable c = true) (repr s).
Proof.
  unfold repr.
  assert (Hq : isprintable (repr_quote s) = true)
    by (unfold repr_quote; now destruct (_ && _)).
  revert Hq. generalize (repr_quote s). intros q Hq.
  repeat (apply Forall_app; split); try (repeat constructor; exact Hq).
  induction s as [|c s IH]; cbn [List.map List.concat]; [constructor|].
  apply Forall_app. split; [now apply repr_char_printable | exact IH].
Qed.

Lemma join_Forall (P : N -> Prop) (sep : pystr) (parts : list pystr) :
  Forall P sep -> Forall (Forall P) parts -> Forall P (join sep parts).
Proof.
  intros Hsep Hparts. induction Hparts as [|p parts Hp Hps IH]; [constructor|].
  cbn [join]. destruct parts as [|p' parts]; [exact Hp|].
  repeat (apply Forall_app; split); assumption.
Qed.

Lemma repr_dict_printable (d : snapshot) :
  Forall (fun c => isprintable c = true) (repr_dict d).
Proof.
  unfold repr_dict.
  apply Forall_app. split; [repeat constructor|].
  apply Forall_app. split; [|repeat constructor].
  apply join_Forall; [repeat constructor|].
  apply List.Forall_forall. intros item Hitem.
  apply in_map_iff in Hitem as (kv & <- & _). unfold repr_item.
  apply Forall_app. split; [apply repr_printable|].
  apply Forall_app. split; [repeat constructor | apply repr_printable].
Qed.

Lemma free_char (c : N) (s : pystr) : ~ In c s -> free [c] s.
Proof.
  intros Hc a b ->. apply Hc. apply in_app_iff. right. now left.
Qed.

Lemma repr_dict_one_line (d : snapshot) : ~ In 10 (repr_dict d).
Proof.
  intros Hin. pose proof (repr_dict_printable d) as Hall.
  rewrite List.Forall_forall in Hall. now specialize (Hall 10 Hin).
Qed.

Lemma split_journal_entry (text : pystr) (d : snapshot) :
  split [10] (text ++ journal_entry d) = split [10] text ++ [repr_dict d].
Proof.
  unfold journal_entry. cbn [app]. rewrite split_char_app. f_equal.
  unfold split. rewrite split_from_free by apply free_char, repr_dict_one_line.
  reflexivity.
Qed.

(** X11: what an append writes is one line: the display form of a
    dictionary has only printable characters, so no line break, and is not
    blank; the lines of the file after the append are its lines before,
    then that one. *)
Theorem journal_entry_is_one_line (text : pystr) (d : snapshot) :
  Forall (fun c => isprintable c = true) (repr_dict d)
  /\ blank (repr_dict d) = false
  /\ split [10] (text ++ journal_entry d) = split [10] text ++ [repr_dict d].
Proof.
  split; [apply repr_dict_printable|]. split; [reflexivity|].
  apply split_journal_entry.
Qed.

(** X12: replaying a file after an append is replaying the file as it was,
    then decoding the appended line. *)
Theorem replay_after_append
    (self : TickToBarConverter) (text : pystr) (d : snapshot) :
  _process_tick_string self (text ++ journal_entry d)
  = (self' ← _process_tick_string self text;
     _parse_line_to_tick self' (repr_dict d)).
Proof.
  unfold _process_tick_string.
  rewrite split_journal_entry, for_each_app.
  destruct (for_each _ self (split [10] text)) as [self'|e]; [|reflexivity].
  cbn [mbind Res_bind for_each].
  change (blank (repr_dict d)) with false. cbn iota.
  now destruct (_parse_line_to_tick self' (repr_dict d)).
Qed.

End Entries.

(** ** Replaying what the recorder wrote *)

Lemma contains_In (c : N) (s : pystr) : contains c s = false <-> ~ In c s.
Proof.
  unfold contains. induction s as [|x s IH]; cbn; [tauto|].
  rewrite orb_false_iff, IH. destruct (N.eqb_spec c x); intuition congruence.
Qed.

Lemma replace_pair_around (q x : N) (a b : pystr) :
  x <> q ->
  replace [q; q] [] (a ++ x :: b)
  = replace [q; q] [] a ++ x :: replace [q; q] [] b.
Proof.
  intros Hx. unfold replace.
  assert (Hgen : forall n a, (List.length a <= n)%nat ->
            replace_from [q; q] [] 0 (a ++ x :: b)
            = replace_from [q; q] [] 0 a ++ x :: replace_from [q; q] [] 0 b).
  { clear a. induction n as [|n IH]; intros a Hlen.
    - destruct a; [|cbn in Hlen; lia]. cbn.
      destruct (N.eqb_spec q x); [congruence|]. reflexivity.
    - destruct a as [|c1 [|c2 a]].
      + cbn. destruct (N.eqb_spec q x); [congruence|]. reflexivity.
      + cbn. destruct (N.eqb_spec q x); [congruence|].
        now rewrite !andb_false_r.
      + cbn [app replace_from startswith List.length Nat.pred].
        destruct ((q =? c1) && ((q =? c2) && true)) eqn:E.
        * cbn [app]. apply IH. cbn in Hlen. lia.
        * rewrite <- app_comm_cons. f_equal.
          apply (IH (c2 :: a)). cbn in Hlen |- *. lia. }
  now apply (Hgen (List.length a)).
Qed.

Lemma clean_str_around (a b : pystr) :
  clean_str (a ++ str ": " ++ b) = clean_str a ++ str ": " ++ clean_str b.
Proof.
  unfold clean_str. change (str ": ") with [58; 32].
  change (str "{") with [123]. change (str "}") with [125].
  change (str "''") with [39; 39].
  rewrite (replace_char_app 123 a ([58; 32] ++ b)),
    (replace_char_app 123 [58; 32] b).
  change (replace [123] [] [58; 32]) with [58; 32].
  rewrite (replace_char_app 125 _ ([58; 32] ++ _)),
    (replace_char_app 125 [58; 32] _).
  change (replace [125] [] [58; 32]) with [58; 32].
  cbn [app]. now rewrite replace_pair_around by discriminate.
Qed.

Section Recorded.
Context `{Host}.
Import record_tick recorder_events transform_tick_data.

Lemma hex_fixed_ascii (w : nat) (n : N) :
  Forall (fun c => c < 127) (hex_fixed w n).
Proof.
  revert n; induction w as [|w IH]; intros n; cbn [hex_fixed]; [constructor|].
  apply Forall_app. split; [apply IH|]. constructor; [|constructor].
  assert (Hlt : n mod 16 < 16) by (apply N.mod_upper_bound; discriminate).
  destruct (hex_digit_printable _ Hlt). lia.
Qed.

Lemma repr_char_keeps (q c x : N) :
  q < 127 -> 127 <= x -> In x (repr_char q c) -> x = c.
Proof.
  intros Hq Hx Hin.
  assert (Hhex : forall p w, Forall (fun c => c < 127) p ->
                             In x (p ++ hex_fixed w c) -> x = c).
  { intros p w Hp Hp'. apply in_app_iff in Hp' as [Hp'|Hp'].
    - rewrite List.Forall_forall in Hp. specialize (Hp x Hp'). lia.
    - pose proof (hex_fixed_ascii w c) as Hall.
      rewrite List.Forall_forall in Hall. specialize (Hall x Hp'). lia. }
  unfold repr_char in Hin.
  repeat match type of Hin with
    | In _ (if ?b then _ else _) => destruct b
    end;
    try (apply Hhex in Hin; [exact Hin | now repeat constructor]);
    cbn in Hin; unfold BACKSLASH in Hin; intuition lia.
Qed.

Lemma repr_keeps (s : pystr) (x : N) : 127 <= x -> In x (repr s) -> In x s.
Proof.
  intros Hx. unfold repr.
  assert (Hq : repr_quote s < 127)
    by (unfold repr_quote; now destruct (_ && _)).
  revert Hq. generalize (repr_quote s). intros q Hq Hin.
  cbn [app] in Hin. destruct Hin as [Hin|Hin]; [lia|].
  apply in_app_iff in Hin as [Hin|[Hin|[]]]; [|lia].
  induction s as [|c s IH]; [destruct Hin|].
  cbn [List.map List.concat] in Hin. apply in_app_iff in Hin as [Hin|Hin].
  - left. symmetry. now apply (repr_char_keeps q).
  - right. now apply IH.
Qed.

Lemma In_join_sep (c : N) (sep : pystr) (parts : list pystr) :
  In c (join sep parts) -> In c sep \/ exists p, In p parts /\ In c p.
Proof.
  induction parts as [|p parts IH]; [intros []|].
  cbn [join]. destruct parts as [|p' parts].
  - intros Hin. right. exists p. split; [now left | exact Hin].
  - intros Hin. apply in_app_iff in Hin as [Hin|Hin].
    + right. exists p. split; [now left | exact Hin].
    + apply in_app_iff in Hin as [Hin|Hin]; [now left|].
      destruct (IH Hin) as [Hsep | (p0 & Hp0 & Hc)]; [now left|].
      right. exists p0. split; [now right | exact Hc].
Qed.

Lemma repr_dict_keeps (d : snapshot) (x : N) :
  127 <= x -> In x (repr_dict d) ->
  exists kv, In kv d /\ (In x (fst kv) \/ In x (snd kv)).
Proof.
  intros Hx Hin. unfold repr_dict in Hin. cbn [app] in Hin.
  change (str "{") with [123] in Hin. cbn [app] in Hin.
  destruct Hin as [Hin|Hin]; [lia|].
  apply in_app_iff in Hin as [Hin|[Hin|[]]]; [|cbn in Hin; lia].
  apply In_join_sep in Hin as [Hin | (p & Hp & Hin)].
  { cbn in Hin. intuition lia. }
  apply in_map_iff in Hp as (kv & <- & Hkv). exists kv. split; [exact Hkv|].
  unfold repr_item in Hin. apply in_app_iff in Hin as [Hin|Hin].
  - left. now apply repr_keeps.
  - apply in_app_iff in Hin as [Hin|Hin]; [cbn in Hin; intuition lia|].
    right. now apply repr_keeps.
Qed.

Lemma comma_free_spec (d : snapshot) :
  comma_free d = true
  <-> Forall (fun kv => ~ In fullwidth_comma (fst kv)
                        /\ ~ In fullwidth_comma (snd kv)) d.
Proof.
  unfold comma_free. rewrite forallb_forall, List.Forall_forall.
  split; intros Hd kv Hkv; specialize (Hd kv Hkv).
  - apply andb_true_iff in Hd as [Hk Hv].
    apply negb_true_iff in Hk, Hv. now rewrite <- !contains_In.
  - destruct Hd as [Hk Hv].
    apply andb_true_iff. split; apply negb_true_iff, contains_In; assumption.
Qed.

Lemma comma_free_line (d : snapshot) :
  comma_free d = true -> free FIELD_SEP (clean_str (repr_dict d)).
Proof.
  intros Hd a b Heq.
  assert (Hin : In fullwidth_comma (clean_str (repr_dict d))).
  { rewrite Heq. apply in_app_iff. right. now left. }
  unfold clean_str in Hin.
  do 3 (apply In_replace in Hin; [|discriminate]).
  apply repr_dict_keeps in Hin as (kv & Hkv & Hin);
    [|unfold fullwidth_comma; lia].
  apply comma_free_spec in Hd. rewrite List.Forall_forall in Hd.
  destruct (Hd kv Hkv). tauto.
Qed.

Lemma repr_dict_two_items (d : snapshot) :
  (2 <= List.length d)%nat ->
  exists a b c, repr_dict d = a ++ str ": " ++ b ++ str ": " ++ c.
Proof.
  destruct d as [|kv1 [|kv2 d]]; cbn [List.length]; try lia. intros _.
  unfold repr_dict. cbn [List.map].
  set (rest := List.map repr_item d).
  assert (Hrest : exists tail,
            join (str ", ") (repr_item kv2 :: rest) = repr_item kv2 ++ tail).
  { destruct rest as [|p rest]; cbn [join]; [exists []|eexists];
      [now rewrite app_nil_r | reflexivity]. }
  destruct Hrest as (tail & Hjoin).
  assert (Hjoin' : join (str ", ") (repr_item kv1 :: repr_item kv2 :: rest)
                   = repr_item kv1 ++ str ", "
                     ++ join (str ", ") (repr_item kv2 :: rest))
    by reflexivity.
  rewrite Hjoin', Hjoin. unfold repr_item.
  exists (str "{" ++ repr (fst kv1)),
    (repr (snd kv1) ++ str ", " ++ repr (fst kv2)),
    (repr (snd kv2) ++ tail ++ str "}").
  now rewrite <- !app_assoc.
Qed.

Lemma recorded_line_decodes (d : snapshot) :
  (2 <= List.length d)%nat -> comma_free d = true ->
  tick_dict (repr_dict d) = [].
Proof.
  intros Hlen Hd. unfold tick_dict.
  pose proof (comma_free_line d Hd) as Hfree.
  unfold split, FIELD_SEP in *. rewrite split_from_free by exact Hfree.
  cbn [List.rev app fold_left].
  destruct (repr_dict_two_items d Hlen) as (a & b & c & ->).
  rewrite clean_str_around, clean_str_around.
  apply add_field_two_colons.
Qed.

Lemma recorded_line_replays (d : snapshot) (self : TickToBarConverter) :
  (2 <= List.length d)%nat -> comma_free d = true ->
  _parse_line_to_tick self (repr_dict d) = Ok self.
Proof.
  intros Hlen Hd. unfold _parse_line_to_tick.
  now rewrite recorded_line_decodes.
Qed.

(** X13: a dictionary of two pairs or more, without full-width comma, is
    written as a line that decodes to the empty mapping: the decoder finds
    one segment, with more than one ': ', and keeps nothing of it; the
    replay gives the bar generator no tick for the line and does not
    raise. *)
Theorem recorded_line_decodes_to_nothing
    (d : snapshot) (self : TickToBarConverter) :
  (2 <= List.length d)%nat -> comma_free d = true ->
  tick_dict (repr_dict d) = []
  /\ _parse_line_to_tick self (repr_dict d) = Ok self.
Proof.
  intros Hlen Hd.
  split; [now apply recorded_line_decodes | now apply recorded_line_replays].
Qed.

(** The text is made of entries of dictionaries that decode to nothing. *)
Lemma silent_entries_replay (ds : list snapshot) (text : pystr)
    (self : TickToBarConverter) :
  Forall (fun d => (2 <= List.length d)%nat /\ comma_free d = true) ds ->
  _process_tick_string self
    (text ++ List.concat (List.map journal_entry ds))
  = _process_tick_string self text.
Proof.
  induction ds as [|d ds IH] using rev_ind; intros Hds.
  - cbn. now rewrite app_nil_r.
  - apply Forall_app in Hds as [Hds Hd]. apply List.Forall_inv in Hd as [Hlen Hd].
    rewrite List.map_app, concat_app. cbn [List.map List.concat].
    rewrite app_nil_r, app_assoc, replay_after_append, (IH Hds).
    destruct (_process_tick_string self text) as [self'|e]; [|reflexivity].
    cbn [mbind Res_bind]. now apply recorded_line_replays.
Qed.

End Recorded.

Lemma recorded_line_decodes_to_nothing_witness :
  tick_dict (@repr_dict ascii_host all_levels) = []
  /\ @transform_tick_data._parse_line_to_tick ascii_host
       {| transform_tick_data.vt_symbol := str "IC2412.CFFEX";
          transform_tick_data.bg := [] |}
       (@repr_dict ascii_host all_levels)
     = Ok {| transform_tick_data.vt_symbol := str "IC2412.CFFEX";
          transform_tick_data.bg := [] |}.
Proof.
  apply (@recorded_line_decodes_to_nothing ascii_host all_levels).
  - vm_compute. lia.
  - reflexivity.
Defined.

Section RecordedJournals.
Context `{Host}.
Import record_tick recorder_events transform_tick_data.

Lemma two_keys {V} (d : dict V) (k1 k2 : pystr) (v1 v2 : V) :
  dict_get d k1 = Some v1 -> dict_get d k2 = Some v2 -> k1 <> k2 ->
  (2 <= List.length d)%nat.
Proof.
  destruct d as [|[k v] [|kv d]]; cbn [List.length]; [discriminate| |lia].
  cbn [dict_get]. intros H1 H2 Hne.
  destruct (pystr_eqb k k1) eqn:E1; [|discriminate].
  destruct (pystr_eqb k k2) eqn:E2; [|discriminate].
  apply pystr_eqb_eq in E1, E2. congruence.
Qed.

Lemma strftime_ascii (dt : datetime) : Forall (fun c => c < 128) (strftime dt).
Proof.
  unfold strftime.
  do 10 (apply Forall_app; split;
         [first [ eapply List.Forall_impl; [|apply dec_fixed_digits];
                  cbn beta; intros a Ha; lia
                | now repeat constructor ]|]).
  eapply List.Forall_impl; [|apply dec_fixed_digits].
  cbn beta; intros a Ha; lia.
Qed.

Lemma strftime_comma_free (dt : datetime) :
  contains fullwidth_comma (strftime dt) = false.
Proof.
  apply contains_In. intros Hin.
  apply (proj1 (List.Forall_forall _ _) (strftime_ascii dt)) in Hin.
  unfold fullwidth_comma in Hin. lia.
Qed.

Lemma comma_free_set (d : snapshot) (k v : pystr) :
  comma_free d = true ->
  contains fullwidth_comma k = false -> contains fullwidth_comma v = false ->
  comma_free (dict_set d k v) = true.
Proof.
  rewrite !comma_free_spec, !contains_In. intros Hd Hk Hv.
  apply dict_set_Forall; [exact Hd | now split].
Qed.

Lemma handle_records (self self' : TickRecorder) (ev : event) :
  comma_free_event ev = true ->
  (forall s c, contracts self !! s = Some c ->
               contains fullwidth_comma (contract_exchange c) = false) ->
  handle self ev = Ok self' ->
  (forall s c, contracts self' !! s = Some c ->
               contains fullwidth_comma (contract_exchange c) = false)
  /\ forall name, exists ds,
       default [] (tick_data self' !! name)
       = default [] (tick_data self !! name)
         ++ List.concat (List.map journal_entry ds)
       /\ Forall (fun d => (2 <= List.length d)%nat /\ comma_free d = true) ds.
Proof.
  intros Hev Hcache Hh.
  assert (Hsame : forall files : gmap pystr pystr, forall name, exists ds,
            default [] (files !! name)
            = default [] (files !! name)
              ++ List.concat (List.map journal_entry ds)
            /\ Forall (fun d => (2 <= List.length d)%nat
                                /\ comma_free d = true) ds).
  { intros files name. exists []. cbn. now rewrite app_nil_r. }
  destruct ev as [contract | now o_tick]; cbn [handle comma_free_event] in *.
  - injection Hh as <-. unfold handle_contract_event.
    destruct (is_futures (contract_product contract)); cbn [negb];
      [|split; [exact Hcache | apply Hsame]].
    cbn [contracts tick_data]. split; [|apply Hsame].
    intros s c Hc. destruct (decide (contract_symbol contract = s)) as [<-|Hne].
    + rewrite lookup_insert_eq in Hc. injection Hc as <-.
      now apply negb_true_iff.
    + rewrite lookup_insert_ne in Hc by assumption. now apply (Hcache s).
  - destruct (dict_get o_tick (str "InstrumentID")) as [s|] eqn:Hs.
    + destruct (contracts self !! s) as [c|] eqn:Hc.
      * rewrite (handle_original_tick_cached _ _ _ _ _ Hs Hc) in Hh.
        injection Hh as <-. cbn [contracts tick_data].
        split; [exact Hcache|]. intros name. unfold append_text.
        destruct (decide (s ++ str "." ++ contract_exchange c ++ str ".txt"
                          = name)) as [<-|Hne].
        -- rewrite lookup_insert_eq. cbn [default].
           eexists [_]. cbn [List.map List.concat]. rewrite app_nil_r.
           split; [reflexivity|]. constructor; [|constructor]. split.
           ++ apply (two_keys _ (str "ExchangeID") (str "localtime")
                       (contract_exchange c) (strftime now));
                [| |discriminate]; rewrite stamped_get; reflexivity.
           ++ apply comma_free_set; [apply comma_free_set| |];
                try reflexivity; try apply strftime_comma_free;
                [exact Hev | now apply (Hcache s)].
        -- rewrite lookup_insert_ne by assumption. apply Hsame.
      * rewrite handle_original_tick_unknown in Hh
          by (intros s' Hs'; rewrite Hs in Hs'; now injection Hs' as <-).
        injection Hh as <-. split; [exact Hcache | apply Hsame].
    + rewrite handle_original_tick_unknown in Hh
        by (intros s' Hs'; rewrite Hs in Hs'; discriminate).
      injection Hh as <-. split; [exact Hcache | apply Hsame].
Qed.

Lemma for_each_handle_records (events : list event) (self self' : TickRecorder) :
  forallb comma_free_event events = true ->
  (forall s c, contracts self !! s = Some c ->
               contains fullwidth_comma (contract_exchange c) = false) ->
  for_each handle self events = Ok self' ->
  forall name, exists ds,
    default [] (tick_data self' !! name)
    = default [] (tick_data self !! name)
      ++ List.concat (List.map journal_entry ds)
    /\ Forall (fun d => (2 <= List.length d)%nat /\ comma_free d = true) ds.
Proof.
  revert self; induction events as [|ev events IH];
    intros self Hevs Hcache Hrun name.
  - injection Hrun as <-. exists []. cbn. now rewrite app_nil_r.
  - cbn [forallb] in Hevs. apply andb_true_iff in Hevs as [Hev Hevs].
    cbn [for_each] in Hrun. apply bind_Ok in Hrun as (self1 & Hh & Hrun).
    destruct (handle_records _ _ _ Hev Hcache Hh) as [Hcache1 Hfiles1].
    destruct (Hfiles1 name) as (ds1 & Heq1 & Hds1).
    destruct (IH self1 Hevs Hcache1 Hrun name) as (ds2 & Heq2 & Hds2).
    exists (ds1 ++ ds2). split; [|apply Forall_app; now split].
    now rewrite Heq2, Heq1, List.map_app, concat_app, app_assoc.
Qed.

(** X14: when no event brings a full-width comma, what a run of the
    recorder appends to a file adds nothing to its replay: the converter
    ends as on the file before the run, and on a file that the run created
    it gives the bar generator no tick and does not raise. *)
Theorem recorded_journals_replay_to_nothing
    (files : gmap pystr pystr) (events : list event) (self : TickRecorder)
    (conv : TickToBarConverter) (name : pystr) :
  forallb comma_free_event events = true ->
  run files events = Ok self ->
  _process_tick_string conv (default [] (tick_data self !! name))
  = _process_tick_string conv (default [] (files !! name))
  /\ (files !! name = None ->
      _process_tick_string conv (default [] (tick_data self !! name))
      = Ok conv).
Proof.
  intros Hevs Hrun.
  destruct (for_each_handle_records events (init files) self Hevs) with name
    as (ds & Heq & Hds); [|exact Hrun|].
  { intros s c Hc. cbn in Hc. now rewrite lookup_empty in Hc. }
  cbn [init tick_data] in Heq.
  assert (Hreplay :
            _process_tick_string conv (default [] (tick_data self !! name))
            = _process_tick_string conv (default [] (files !! name)))
    by (rewrite Heq; now apply silent_entries_replay).
  split; [exact Hreplay|]. intros Hnone. rewrite Hreplay.
  exact (f_equal (fun text => _process_tick_string conv (default [] text))
           Hnone).
Qed.

End RecordedJournals.

Lemma recorded_journals_replay_to_nothing_witness :
  exists self,
    @recorder_events.run ascii_host ∅
      [recorder_events.CONTRACT IC2412;
       recorder_events.ORIGINAL_TICK noon all_levels] = Ok self
    /\ record_tick.tick_data self !! str "IC2412.CFFEX.txt" <> None
    /\ @transform_tick_data._process_tick_string ascii_host
         {| transform_tick_data.vt_symbol := str "IC2412.CFFEX";
            transform_tick_data.bg := [] |}
         (default [] (record_tick.tick_data self !! str "IC2412.CFFEX.txt"))
       = Ok {| transform_tick_data.vt_symbol := str "IC2412.CFFEX";
               transform_tick_data.bg := [] |}.
Proof.
  eexists. split; [reflexivity|]. split.
  - vm_compute. discriminate.
  - apply (@recorded_journals_replay_to_nothing ascii_host ∅
             [recorder_events.CONTRACT IC2412;
              recorder_events.ORIGINAL_TICK noon all_levels]).
    + reflexivity.
    + reflexivity.
    + reflexivity.
Defined.

(** ** What the assembler reads and what it raises *)

Lemma rsplit1_inv (c : N) (s a b : pystr) :
  rsplit1 c s = Some (a, b) -> s = a ++ c :: b /\ ~ In c b.
Proof.
  revert a b; induction s as [|x s IH]; intros a b; cbn [rsplit1];
    [discriminate|].
  destruct (rsplit1 c s) as [[a' b']|] eqn:E.
  - intros [= <- <-]. destruct (IH a' b' eq_refl) as [-> Hb]. now split.
  - destruct (N.eqb_spec x c) as [->|Hne]; [|discriminate].
    intros [= <- <-]. split; [reflexivity|].
    clear IH. revert E. induction s as [|y s IHs]; [tauto|].
    cbn [rsplit1]. destruct (rsplit1 c s) as [[a' b']|]; [discriminate|].
    destruct (N.eqb_spec y c); [discriminate|].
    intros _ [Hy|Hin]; [congruence | now apply IHs].
Qed.

Lemma rsplit1_none (c : N) (s : pystr) : ~ In c s -> rsplit1 c s = None.
Proof.
  induction s as [|x s IH]; [reflexivity|]. intros Hin. cbn [rsplit1].
  rewrite IH by (intros Hs; apply Hin; now right).
  destruct (N.eqb_spec x c) as [->|]; [|reflexivity].
  destruct Hin. now left.
Qed.

Lemma rsplit1_last (c : N) (a b : pystr) :
  ~ In c b -> rsplit1 c (a ++ c :: b) = Some (a, b).
Proof.
  intros Hb. induction a as [|x a IH]; cbn [app rsplit1].
  - now rewrite (rsplit1_none c b Hb), N.eqb_refl.
  - now rewrite IH.
Qed.

Lemma existsb_pystr_eqb (e : pystr) (l : list pystr) :
  existsb (pystr_eqb e) l = true <-> In e l.
Proof.
  rewrite existsb_exists. split.
  - intros (x & Hx & Heq). apply pystr_eqb_eq in Heq. now subst.
  - intros He. exists e. split; [exact He | apply pystr_eqb_refl].
Qed.

Section AssemblerReads.
Context `{Host}.

Lemma extract_vt_symbol_inv (vt symbol : pystr) (exchange : Exchange) :
  extract_vt_symbol vt = Ok (symbol, exchange) ->
  vt = symbol ++ str "." ++ exchange
  /\ ~ In 46 exchange /\ In exchange exchange_values.
Proof.
  unfold extract_vt_symbol.
  destruct (rsplit1 46 vt) as [[a b]|] eqn:E; [|discriminate].
  destruct (existsb (pystr_eqb b) exchange_values) eqn:Hex; [|discriminate].
  intros [= <- <-]. apply rsplit1_inv in E as [-> Hb].
  apply existsb_pystr_eqb in Hex. auto.
Qed.

(** X15: a tick that the assembler builds has the symbol and the exchange
    that the last dot of [vt_symbol] separates, the exchange being a member
    of [Exchange] and without dot, and the gateway name [local_gateway]: the
    [InstrumentID] and the [ExchangeID] of the line play no part. *)
Theorem assembled_tick_is_named_after_vt_symbol
    (vt : pystr) (data : snapshot) (tick : TickData) :
  assemble vt data = Ok (Some tick) ->
  vt = symbol tick ++ str "." ++ exchange tick
  /\ ~ In 46 (exchange tick)
  /\ In (exchange tick) exchange_values
  /\ gateway_name tick = str "local_gateway".
Proof.
  intros Ha. apply assemble_inv in Ha as (top & Hc & Htick).
  assert (Htop : vt = symbol top ++ str "." ++ exchange top
                 /\ ~ In 46 (exchange top)
                 /\ In (exchange top) exchange_values
                 /\ gateway_name top = str "local_gateway").
  { unfold construct in Hc.
    destruct (truthy data (str "UpdateTime")); [|discriminate].
    cbn [negb] in Hc. res_inv Hc. destruct a as [sym ex]. res_inv Hc.
    injection Hc as <-. cbn [symbol exchange gateway_name].
    apply extract_vt_symbol_inv in E as (? & ? & ?). auto. }
  destruct Htick as [[_ ->] | (_ & d & _ & ->)]; exact Htop.
Qed.

(** X16: the vt_symbol made of an instrument and of an exchange that is a
    member of [Exchange], without dot, is taken apart into these two, dots
    in the instrument or not; and the journal that the recorder names after
    them is the file named after that vt_symbol. *)
Theorem vt_symbol_of_a_journal
    (o_tick : snapshot) (instrument : pystr) (exchange : Exchange) :
  dict_get o_tick (str "InstrumentID") = Some instrument ->
  dict_get o_tick (str "ExchangeID") = Some exchange ->
  In exchange exchange_values -> ~ In 46 exchange ->
  extract_vt_symbol (instrument ++ str "." ++ exchange)
  = Ok (instrument, exchange)
  /\ record_tick.file_name o_tick
     = Ok ((instrument ++ str "." ++ exchange) ++ str ".txt").
Proof.
  intros Hi He Hin Hdot. split.
  - unfold extract_vt_symbol. change (str ".") with [46]. cbn [app].
    rewrite (rsplit1_last 46 instrument exchange Hdot).
    now rewrite (proj2 (existsb_pystr_eqb _ _) Hin).
  - unfold record_tick.file_name, dict_item. rewrite Hi, He.
    cbn [mbind Res_bind mret Res_ret]. now rewrite <- !app_assoc.
Qed.

Lemma same_truthy (d1 d2 : snapshot) (k : pystr) :
  dict_get d1 k = dict_get d2 k -> truthy d1 k = truthy d2 k.
Proof. unfold truthy. now intros ->. Qed.

Lemma same_item (d1 d2 : snapshot) (k : pystr) :
  dict_get d1 k = dict_get d2 k -> dict_item d1 k = dict_item d2 k.
Proof. unfold dict_item. now intros ->. Qed.

Lemma read_key (key : string) :
  existsb (String.eqb key)
    (["UpdateTime"; "ActionDay"; "localtime"; "UpdateMillisec"]%string
     ++ required_numeric ++ depth_keys) = true ->
  In (str key) read_keys.
Proof.
  intros Hk. apply existsb_exists in Hk as (x & Hx & Heq).
  apply String.eqb_eq in Heq as <-. now apply in_map.
Qed.

(** X17: the assembler's result depends on the dictionary through the keys
    it reads only: two dictionaries that agree on them give the same tick,
    or the same exception. *)
Theorem assemble_reads_its_keys_only (vt : pystr) (d1 d2 : snapshot) :
  (forall k, In k read_keys -> dict_get d1 k = dict_get d2 k) ->
  assemble vt d1 = assemble vt d2.
Proof.
  intros Hsame.
  assert (Hk : forall key,
            existsb (String.eqb key)
              (["UpdateTime"; "ActionDay"; "localtime"; "UpdateMillisec"]%string
               ++ required_numeric ++ depth_keys) = true ->
            dict_get d1 (str key) = dict_get d2 (str key))
    by (intros key Hkey; apply Hsame, read_key, Hkey).
  unfold assemble, construct, has_depth, read_depth, date_str, adjusted, raw,
    float_item.
  repeat match goal with
    | |- context [truthy d1 (str ?k)] =>
        rewrite (same_truthy d1 d2 (str k) (Hk k eq_refl))
    | |- context [dict_item d1 (str ?k)] =>
        rewrite (same_item d1 d2 (str k) (Hk k eq_refl))
    end.
  reflexivity.
Qed.

End AssemblerReads.

Section AssemblerRaises.
Context `{Host}.

Lemma missing_bind {A B} (data : snapshot) (r : Res A) (f : A -> Res B) :
  raises_for_missing_key data r ->
  (forall a, raises_for_missing_key data (f a)) ->
  raises_for_missing_key data (r ≫= f).
Proof.
  intros Hr Hf k. destruct r as [a|e]; cbn; [apply Hf|].
  intros [= ->]. now apply Hr.
Qed.

Lemma missing_fmap {A B} (data : snapshot) (r : Res A) (f : A -> B) :
  raises_for_missing_key data r -> raises_for_missing_key data (f <$> r).
Proof.
  intros Hr k. destruct r as [a|e]; cbn; [discriminate|].
  intros [= ->]. now apply Hr.
Qed.

Lemma missing_ret {A} (data : snapshot) (a : A) :
  raises_for_missing_key data (mret a).
Proof. intros k. discriminate. Qed.

Lemma missing_item (data : snapshot) (key : string) :
  existsb (String.eqb key)
    (["UpdateTime"; "ActionDay"; "localtime"; "UpdateMillisec"]%string
     ++ required_numeric ++ depth_keys) = true ->
  raises_for_missing_key data (dict_item data (str key)).
Proof.
  intros Hkey k. unfold dict_item.
  destruct (dict_get data (str key)) eqn:E; [discriminate|].
  intros [= <-]. split; [now apply read_key | exact E].
Qed.

Lemma missing_float (data : snapshot) (s : pystr) :
  raises_for_missing_key data (float_of_str s).
Proof.
  intros k. unfold float_of_str.
  destruct (drop_underscores _ _); [|discriminate].
  destruct (parse_decimal _) as [[[neg m] e]|]; [discriminate|].
  destruct (parse_inf_or_nan _); discriminate.
Qed.

Lemma missing_float_item (data : snapshot) (key : string) :
  existsb (String.eqb key)
    (["UpdateTime"; "ActionDay"; "localtime"; "UpdateMillisec"]%string
     ++ required_numeric ++ depth_keys) = true ->
  raises_for_missing_key data (float_item data key).
Proof.
  intros Hkey. apply missing_bind; [now apply missing_item|].
  intros s. apply missing_float.
Qed.

Lemma missing_extract (data : snapshot) (vt : pystr) :
  raises_for_missing_key data (extract_vt_symbol vt).
Proof.
  intros k. unfold extract_vt_symbol.
  destruct (rsplit1 46 vt) as [[a b]|]; [|discriminate].
  destruct (existsb _ _); discriminate.
Qed.

Lemma missing_first_match (data : snapshot)
    (ms : list (Res datetime * pystr)) :
  Forall (fun m => forall k, fst m <> Raise (KeyError k)) ms ->
  raises_for_missing_key data (first_match ms).
Proof.
  intros Hms k. unfold first_match.
  destruct ms as [|[r [|c rest]] ms]; try discriminate.
  apply List.Forall_inv in Hms. intros Hr. now destruct (Hms k).
Qed.

Lemma make_datetime_no_key (y m d hh mm ss us : N) (k : pystr) :
  make_datetime y m d hh mm ss us <> Raise (KeyError k).
Proof. unfold make_datetime. destruct (_ && _); discriminate. Qed.

Ltac all_matches :=
  repeat (apply Forall_bind, Forall_forall; intros [? ?] _);
  constructor; [intros k; apply make_datetime_no_key | constructor].

Lemma missing_strptime_exchange (data : snapshot) (s : pystr) :
  raises_for_missing_key data (strptime_exchange s).
Proof. apply missing_first_match. all_matches. Qed.

Lemma missing_strptime_local (data : snapshot) (s : pystr) :
  raises_for_missing_key data (strptime_local s).
Proof. apply missing_first_match. all_matches. Qed.

Ltac missing :=
  repeat first
    [ apply missing_ret
    | apply missing_extract
    | apply missing_strptime_exchange
    | apply missing_strptime_local
    | apply missing_float
    | apply missing_item; reflexivity
    | apply missing_fmap
    | apply missing_bind; [|intros ?] ].

(** X18: when the assembler raises a [KeyError], the key is one of those
    it reads and the dictionary does not have it; the float conversions,
    the two [strptime] and [extract_vt_symbol] raise [ValueError] only. *)
Theorem assembler_key_errors (vt : pystr) (data : snapshot) (k : pystr) :
  assemble vt data = Raise (KeyError k) ->
  In k read_keys /\ dict_get data k = None.
Proof.
  revert k. change (raises_for_missing_key data (assemble vt data)).
  unfold assemble, construct, read_depth, date_str, adjusted, raw, float_item.
  destruct (negb (truthy data (str "UpdateTime"))); [apply missing_ret|].
  apply missing_bind.
  - apply missing_bind; [apply missing_extract|]. intros [sym ex].
    destruct (_ || _); missing.
  - intros [tick|]; [|apply missing_ret].
    destruct (has_depth data); missing.
Qed.

End AssemblerRaises.

Lemma assembler_key_errors_witness :
  In (str "AskPrice1") read_keys
  /\ dict_get (List.filter (fun kv => negb (pystr_eqb (fst kv) (str "AskPrice1")))
                 scenario) (str "AskPrice1") = None.
Proof.
  apply (@assembler_key_errors ascii_host (str "IC2412.CFFEX")).
  vm_compute. reflexivity.
Defined.

(** ** The local time, written and read back *)

Lemma hd_error_bind {A B} (l : list A) (f : A -> list B) (x : A) (y : B) :
  hd_error l = Some x -> hd_error (f x) = Some y ->
  hd_error (l ≫= f) = Some y.
Proof.
  destruct l as [|x' l]; [discriminate|]. intros [= ->]. cbn.
  destruct (f x) as [|y' r]; [discriminate|]. now intros [= ->].
Qed.

Lemma first_match_hd (ms : list (Res datetime * pystr)) (r : Res datetime) :
  hd_error ms = Some (r, []) -> first_match ms = r.
Proof. destruct ms as [|[r' s] ms]; [discriminate|]. now intros [= -> ->]. Qed.

Lemma below (n : N) (bound : nat) :
  n < N.of_nat bound -> exists k, (k < bound)%nat /\ n = N.of_nat k.
Proof. intros Hn. exists (N.to_nat n). split; lia. Qed.

Tactic Notation "by_cases" hyp(Hn) integer(n) constr(bound) :=
  apply (below _ bound) in Hn as (k & Hk & ->);
  do n (destruct k as [|k]; [try reflexivity; try lia|]); lia.

Section LocalTime.
Context `{Host}.

Lemma re_Y_dec (y : N) (s : pystr) :
  y < 10000 -> hd_error (re_Y (dec_fixed 4 y ++ s)) = Some (y, s).
Proof.
  intros Hy. cbn [dec_fixed]. rewrite <- !app_assoc. cbn [app].
  set (q1 := y / 10). set (q2 := q1 / 10). set (q3 := q2 / 10).
  assert (H0 : y = 10 * q1 + y mod 10) by (apply N.div_mod; discriminate).
  assert (H1 : q1 = 10 * q2 + q1 mod 10) by (apply N.div_mod; discriminate).
  assert (H2 : q2 = 10 * q3 + q2 mod 10) by (apply N.div_mod; discriminate).
  assert (B0 : y mod 10 < 10) by (apply N.mod_upper_bound; discriminate).
  assert (B1 : q1 mod 10 < 10) by (apply N.mod_upper_bound; discriminate).
  assert (B2 : q2 mod 10 < 10) by (apply N.mod_upper_bound; discriminate).
  assert (B3 : q3 mod 10 < 10) by (apply N.mod_upper_bound; discriminate).
  assert (H3 : q3 mod 10 = q3).
  { apply N.mod_small. revert H0 H1 H2 B0 B1 B2.
    generalize (y mod 10) (q1 mod 10) (q2 mod 10). intros. lia. }
  assert (Hdigit : forall d t, d < 10 -> digit ((48 + d) :: t) = [(d, t)]).
  { intros d t Hd. unfold digit, one, todecimal.
    destruct (N.ltb_spec (48 + d) 128); [|lia].
    destruct (N.leb_spec 48 (48 + d)); [|lia].
    destruct (N.leb_spec (48 + d) 57); [|lia].
    cbn [andb]. do 3 f_equal. lia. }
  assert (Hone : forall (A B : Type) (x : A) (f : A -> list B),
            [x] ≫= f = f x) by (intros; cbn; apply app_nil_r).
  unfold re_Y, two.
  rewrite (Hdigit (q3 mod 10)), Hone by assumption. cbn beta iota.
  rewrite (Hdigit (q2 mod 10)), !Hone by assumption. cbn beta iota.
  rewrite (Hdigit (q1 mod 10)), Hone by assumption. cbn beta iota.
  rewrite (Hdigit (y mod 10)), !Hone by assumption. cbn beta iota.
  cbn [hd_error]. do 2 f_equal.
  rewrite H3. revert H0 H1 H2.
  generalize (y mod 10) (q1 mod 10) (q2 mod 10). intros. lia.
Qed.

Lemma re_m_dec (m : N) (s : pystr) :
  1 <= m -> m < 13 -> hd_error (re_m (dec_fixed 2 m ++ s)) = Some (m, s).
Proof. intros Hlo Hn. by_cases Hn 13 13%nat. Qed.

Lemma re_d_dec (d : N) (s : pystr) :
  1 <= d -> d < 32 -> hd_error (re_d (dec_fixed 2 d ++ s)) = Some (d, s).
Proof. intros Hlo Hn. by_cases Hn 32 32%nat. Qed.

Lemma re_H_dec (n : N) (s : pystr) :
  n < 24 -> hd_error (re_H (dec_fixed 2 n ++ s)) = Some (n, s).
Proof. intros Hn. by_cases Hn 24 24%nat. Qed.

Lemma re_M_dec (n : N) (s : pystr) :
  n < 60 -> hd_error (re_M (dec_fixed 2 n ++ s)) = Some (n, s).
Proof. intros Hn. by_cases Hn 60 60%nat. Qed.

Lemma re_S_dec (n : N) (s : pystr) :
  n < 60 -> hd_error (re_S (dec_fixed 2 n ++ s)) = Some (n, s).
Proof. intros Hn. by_cases Hn 60 60%nat. Qed.

Lemma spaces_dec (n : N) (s : pystr) :
  n < 24 ->
  hd_error (spaces (str " " ++ dec_fixed 2 n ++ s))
  = Some (tt, dec_fixed 2 n ++ s).
Proof. intros Hn. by_cases Hn 24 24%nat. Qed.

Lemma days_in_month_le (y m : N) : days_in_month y m <= 31.
Proof.
  unfold days_in_month.
  repeat match goal with |- context [if ?b then _ else _] => destruct b end;
    lia.
Qed.

Lemma strptime_local_strftime (now : datetime) :
  clock_reading now = true ->
  strptime_local (strftime now) = Ok (to_the_second now).
Proof.
  unfold clock_reading. intros Hnow.
  repeat (apply andb_true_iff in Hnow as [Hnow ?]).
  repeat match goal with
    | Hb : (_ <=? _) = true |- _ => apply N.leb_le in Hb
    | Hb : (_ <? _) = true |- _ => apply N.ltb_lt in Hb
    end.
  pose proof (days_in_month_le (year now) (month now)).
  unfold strptime_local, strftime. apply first_match_hd.
  rewrite <- (app_nil_r (dec_fixed 2 (second now))).
  eapply hd_error_bind; [apply re_Y_dec; lia|]. cbn beta iota.
  eapply hd_error_bind; [reflexivity|]. cbn beta iota.
  eapply hd_error_bind; [apply re_m_dec; lia|]. cbn beta iota.
  eapply hd_error_bind; [reflexivity|]. cbn beta iota.
  eapply hd_error_bind; [apply re_d_dec; lia|]. cbn beta iota.
  eapply hd_error_bind; [apply spaces_dec; lia|]. cbn beta iota.
  eapply hd_error_bind; [apply re_H_dec; lia|]. cbn beta iota.
  eapply hd_error_bind; [reflexivity|]. cbn beta iota.
  eapply hd_error_bind; [apply re_M_dec; lia|]. cbn beta iota.
  eapply hd_error_bind; [reflexivity|]. cbn beta iota.
  eapply hd_error_bind; [apply re_S_dec; lia|]. cbn beta iota.
  cbn [hd_error]. do 2 f_equal. unfold make_datetime, to_the_second.
  destruct (N.leb_spec 1 (year now)); [|lia].
  destruct (N.leb_spec 1 (day now)); [|lia].
  destruct (N.leb_spec (day now) (days_in_month (year now) (month now)));
    [|lia].
  destruct (N.leb_spec (second now) 59); [|lia].
  reflexivity.
Qed.

(** X19: the local time goes through the journal to the second: what the
    recorder formats from a clock reading with a year of four digits, the
    assembler's [strptime] reads back as that reading without its
    microseconds, and this is the [localtime] of the tick built from a
    dictionary that holds it. *)
Theorem localtime_survives_to_the_second
    (now : datetime) (vt : pystr) (data : snapshot) (tick : TickData) :
  clock_reading now = true ->
  dict_get data (str "localtime") = Some (strftime now) ->
  assemble vt data = Ok (Some tick) ->
  strptime_local (strftime now) = Ok (to_the_second now)
  /\ localtime tick = to_the_second now.
Proof.
  intros Hnow Hlocal Ha.
  pose proof (strptime_local_strftime now Hnow) as Hround.
  split; [exact Hround|].
  apply assemble_inv in Ha as (top & Hc & Htick).
  assert (Htop : localtime top = to_the_second now).
  { unfold construct in Hc.
    destruct (truthy data (str "UpdateTime")); [|discriminate].
    cbn [negb] in Hc. res_inv Hc. destruct a as [sym ex]. res_inv Hc.
    injection Hc as <-. cbn [localtime].
    match goal with
    | E : dict_item data (str "localtime") ≫= strptime_local = Ok _ |- _ =>
        apply bind_Ok in E as (text & Hitem & Hparse);
        pose proof (eq_trans (eq_sym Hitem) (dict_item_some _ _ _ Hlocal))
          as Htext;
        injection Htext as ->; rewrite Hround in Hparse;
        now injection Hparse as <-
    end. }
  destruct Htick as [[_ ->] | (_ & d & _ & ->)]; exact Htop.
Qed.

End LocalTime.

(** ** The two folders of the converter *)

Section Start.
Context `{Host}.
Import transform_tick_data.

Lemma replay_joined (self : TickToBarConverter) (a b : pystr) :
  _process_tick_string self (a ++ [10] ++ b)
  = (self' ← _process_tick_string self a; _process_tick_string self' b).
Proof.
  unfold _process_tick_string. cbn [app].
  now rewrite split_char_app, for_each_app.
Qed.

Lemma replay_keeps_vt_symbol (self self' : TickToBarConverter) (text : pystr) :
  _process_tick_string self text = Ok self' -> vt_symbol self' = vt_symbol self.
Proof.
  unfold _process_tick_string. rewrite replay_lines. intros Hrun.
  apply bind_Ok in Hrun as (ticks & _ & Hrun). now injection Hrun as <-.
Qed.

Lemma start_folder (self : TickToBarConverter) (folder : gmap pystr pystr) :
  match folder !! journal_name (vt_symbol self) with
  | None => mret self
  | Some [] => mret self
  | Some data_str => _process_tick_string self data_str
  end
  = _process_tick_string self
      (default [] (folder !! journal_name (vt_symbol self))).
Proof. now destruct (folder !! journal_name (vt_symbol self)) as [[|c text]|]. Qed.

(** X20: [start] gives the bar generator what one replay of the night text,
    a newline and the day text gives it, a missing file counting as an
    empty text; and it raises when that replay does. *)
Theorem start_replays_night_then_day
    (self : TickToBarConverter) (tick_data_night tick_data_day : gmap pystr pystr) :
  start self tick_data_night tick_data_day
  = _process_tick_string self
      (default [] (tick_data_night !! journal_name (vt_symbol self))
       ++ [10]
       ++ default [] (tick_data_day !! journal_name (vt_symbol self))).
Proof.
  unfold start. cbn [for_each]. rewrite replay_joined, start_folder.
  destruct (_process_tick_string self
              (default [] (tick_data_night !! journal_name (vt_symbol self))))
    as [self'|e] eqn:Hnight; [|reflexivity].
  cbn [mbind Res_bind]. rewrite start_folder.
  rewrite (replay_keeps_vt_symbol _ _ _ Hnight).
  now destruct (_process_tick_string self' _).
Qed.

End Start.

(** ** The properties at the sample data *)

Lemma replay_gives_at_most_one_tick_per_line_witness :
  exists self',
    @transform_tick_data._process_tick_string ascii_host
      {| transform_tick_data.vt_symbol := str "IC2412.CFFEX";
         transform_tick_data.bg := [] |}
      ([10] ++ bare_line scenario ++ [10] ++ str "  ") = Ok self'
    /\ (List.length (transform_tick_data.bg self') <= 1)%nat.
Proof.
  eexists. split; [vm_compute; reflexivity|].
  apply (@replay_gives_at_most_one_tick_per_line ascii_host
           {| transform_tick_data.vt_symbol := str "IC2412.CFFEX";
              transform_tick_data.bg := [] |}
           _ ([10] ++ bare_line scenario ++ [10] ++ str "  ")).
  vm_compute. reflexivity.
Defined.

Lemma loader_and_converter_agree_witness :
  @load_tick_data.process_total_data ascii_host
    {| load_tick_data.vt_symbol := str "IC2412.CFFEX" |}
    ([10] ++ bare_line scenario)
  = (fun _ => tt) <$>
    @transform_tick_data._process_tick_string ascii_host
      {| transform_tick_data.vt_symbol := str "IC2412.CFFEX";
         transform_tick_data.bg := [] |}
      ([10] ++ bare_line scenario).
Proof. apply (@loader_and_converter_agree ascii_host). reflexivity. Defined.

Lemma cached_tick_is_stamped_and_appended_witness :
  exists self' stamped,
    @record_tick.handle_original_tick ascii_host
      {| record_tick.contracts := {[ str "IC2412" := IC2412 ]};
         record_tick.subscribed := [];
         record_tick.tick_data := ∅ |}
      noon (scenario ++ [item "ExchangeID" "SHFE"]) = Ok (self', stamped)
    /\ record_tick.file_name stamped = Ok (str "IC2412.CFFEX.txt")
    /\ dict_get stamped (str "ExchangeID") = Some (str "CFFEX")
    /\ dict_get stamped (str "localtime") = Some (str "2024-12-10 12:00:00")
    /\ record_tick.tick_data self'
       = {[ str "IC2412.CFFEX.txt" := [10] ++ @repr_dict ascii_host stamped ]}.
Proof.
  destruct (@record_tick.handle_original_tick ascii_host
              {| record_tick.contracts := {[ str "IC2412" := IC2412 ]};
                 record_tick.subscribed := [];
                 record_tick.tick_data := ∅ |}
              noon (scenario ++ [item "ExchangeID" "SHFE"]))
    as [[self' stamped]|e] eqn:Hh; [|vm_compute in Hh; discriminate].
  exists self', stamped. split; [reflexivity|].
  assert (Hc : ({[ str "IC2412" := IC2412 ]} : gmap pystr ContractData)
               !! str "IC2412" = Some IC2412) by (vm_compute; reflexivity).
  assert (Hs : dict_get (scenario ++ [item "ExchangeID" "SHFE"])
                 (str "InstrumentID") = Some (str "IC2412")) by reflexivity.
  destruct (@cached_tick_is_stamped_and_appended ascii_host
              {| record_tick.contracts := {[ str "IC2412" := IC2412 ]};
                 record_tick.subscribed := [];
                 record_tick.tick_data := ∅ |}
              self' noon (scenario ++ [item "ExchangeID" "SHFE"]) stamped
              (str "IC2412") IC2412 Hs Hc Hh)
    as (Hn & He & Hl & _ & _ & _ & Hf).
  repeat split; assumption.
Defined.

Lemma recorder_only_appends_witness :
  exists self,
    @recorder_events.run ascii_host {[ str "IC2412.CFFEX.txt" := str "{}" ]}
      [recorder_events.CONTRACT IC2412;
       recorder_events.ORIGINAL_TICK noon scenario] = Ok self
    /\ only_appended {[ str "IC2412.CFFEX.txt" := str "{}" ]}
         (record_tick.tick_data self).
Proof.
  eexists. split; [reflexivity|].
  apply (@recorder_only_appends ascii_host _
           [recorder_events.CONTRACT IC2412;
            recorder_events.ORIGINAL_TICK noon scenario]).
  reflexivity.
Defined.

Lemma assembled_tick_is_named_after_vt_symbol_witness :
  exists tick,
    @assemble ascii_host (str "IC2412.CFFEX") scenario = Ok (Some tick)
    /\ str "IC2412.CFFEX" = symbol tick ++ str "." ++ exchange tick
    /\ ~ In 46 (exchange tick)
    /\ In (exchange tick) (@exchange_values ascii_host)
    /\ gateway_name tick = str "local_gateway".
Proof.
  eexists. split; [vm_compute; reflexivity|].
  apply (@assembled_tick_is_named_after_vt_symbol ascii_host
           (str "IC2412.CFFEX") scenario).
  vm_compute. reflexivity.
Defined.

Lemma vt_symbol_of_a_journal_witness :
  @extract_vt_symbol ascii_host (str "IC2412" ++ str "." ++ str "CFFEX")
  = Ok (str "IC2412", str "CFFEX")
  /\ record_tick.file_name two_fields
     = Ok ((str "IC2412" ++ str "." ++ str "CFFEX") ++ str ".txt").
Proof.
  apply (@vt_symbol_of_a_journal ascii_host two_fields).
  - reflexivity.
  - reflexivity.
  - vm_compute. tauto.
  - intros Hin. vm_compute in Hin. intuition discriminate.
Defined.

Lemma assemble_reads_its_keys_only_witness :
  @assemble ascii_host (str "IC2412.CFFEX") scenario
  = @assemble ascii_host (str "IC2412.CFFEX")
      (dict_set (dict_set scenario (str "ExchangeID") (str "DCE"))
         (str "InstrumentID") (str "m2501")).
Proof.
  apply (@assemble_reads_its_keys_only ascii_host).
  intros k Hk. vm_compute in Hk.
  repeat (destruct Hk as [<-|Hk]; [vm_compute; reflexivity|]).
  destruct Hk.
Defined.

Lemma localtime_survives_to_the_second_witness :
  exists tick,
    @assemble ascii_host (str "IC2412.CFFEX") scenario = Ok (Some tick)
    /\ localtime tick
       = {| year := 2024; month := 12; day := 10;
            hour := 9; minute := 30; second := 0; microsecond := 0 |}.
Proof.
  eexists. split; [vm_compute; reflexivity|].
  apply (@localtime_survives_to_the_second ascii_host
           {| year := 2024; month := 12; day := 10;
              hour := 9; minute := 30; second := 0; microsecond := 250000 |}
           (str "IC2412.CFFEX") scenario).
  - reflexivity.
  - reflexivity.
  - vm_compute. reflexivity.
Defined.
